(* ===================================================================== *)
(* Notifications Hub: a shallow embedding of the dispatch engine          *)
(*   backend/database/models/Notification.ts   (NotificationModel)        *)
(*   backend/services/NotificationQueueProcessor (queue processor class)  *)
(*   backend/services/NotificationService.ts                              *)
(*   backend/services/channels/ (Email, SMS, Push, Slack, Telegram)       *)
(*   backend/routes/notifications.ts, backend/worker.ts                   *)
(*   backend/routes/sms.ts (the summary of a bulk send)                   *)
(* The module-level queue and worker (a second, older implementation) is  *)
(* imported by nothing and is not part of the model.                      *)
(* ===================================================================== *)

From Stdlib Require Import ZArith String Ascii List Bool Lia DecimalString Sorted.
From Stdlib Require Decimal DecimalFacts DecimalPos.
From stdpp Require Import base option gmap strings list.

Local Open Scope string_scope.
Local Open Scope Z_scope.

(* --------------------------------------------------------------------- *)
(* Basic values                                                           *)
(* --------------------------------------------------------------------- *)

(** Timestamps are milliseconds since the epoch, as [Date.getTime()]. *)
Definition Time := Z.

(** A JavaScript computation either returns or throws an [Error] whose
    message is the payload. *)
Inductive Throws (A : Type) : Type :=
| Ok (a : A)
| Throw (message : string).
Arguments Ok {A} a.
Arguments Throw {A} message.

#[global] Instance throws_ret : MRet Throws := fun A a => Ok a.
#[global] Instance throws_bind : MBind Throws := fun A B k m =>
  match m with
  | Ok a => k a
  | Throw e => Throw e
  end.

(** [Number.prototype.toString] on an integer. *)
Definition showZ (z : Z) : string := NilZero.string_of_int (Z.to_int z).

(* --------------------------------------------------------------------- *)
(* Persistent records (database/models/Notification.ts)                   *)
(* --------------------------------------------------------------------- *)

(** The driver-level value of the [content] column: the request's
    [message] is either a plain string or an object with [title]/[body]
    that the driver serialises as JSON text. *)
Inductive Message : Type :=
| MsgText (s : string)
| MsgObject (title body : option string).

Record Notification := mkNotification {
  id : Z;
  user_id : option Z;
  channel : string;
  recipient : string;
  subject : option string;
  content : Message;
  status : string;
  scheduled_at : Time;
  sent_at : option Time;
  created_at : Time;
  updated_at : Time;
  retry_count : Z;
  max_retries : Z;
  priority : option string;
  last_processed_at : option Time
}.

(** The payload returned by an adapter ([SMSResult], [PushResult], the
    e-mail result object, ...), kept structured instead of as the text
    produced by [JSON.stringify]. *)
Record SendResult := mkSendResult {
  success : bool;
  messageId : option string;
  error : option string
}.

Record ErrorDetails := mkErrorDetails {
  ed_error : string;
  ed_timestamp : Time
}.

Record NotificationLog := mkLog {
  notification_id : Z;
  log_status : string;
  log_message : string;
  error_details : option ErrorDetails;
  provider_response : option SendResult
}.

(** The relational store: the [notifications] table keyed by its primary
    key, the SERIAL sequence, the ids of [notification_users] (for the
    foreign key) and the append-only [notification_logs] table, newest
    entry first. *)
Record DB := mkDB {
  rows : gmap Z Notification;
  next_id : Z;
  users : gset Z;
  logs : list NotificationLog
}.

(* Field updates of a row, as the SET clauses write them. *)
Definition with_status (s : string) (sentAt : option Time) (now : Time)
    (n : Notification) : Notification :=
  mkNotification (id n) (user_id n) (channel n) (recipient n) (subject n)
    (content n) s (scheduled_at n) sentAt (created_at n) now
    (retry_count n) (max_retries n) (priority n) (last_processed_at n).

(** The row written by [updateStatus]: [sent_at] is assigned on every
    call, the current time for "sent" and null for any other status. *)
Definition statusUpdate (now : Time) (st : string) : Notification -> Notification :=
  with_status st (if String.eqb st "sent" then Some now else None) now.

Definition with_last_processed (now : Time) (n : Notification) : Notification :=
  mkNotification (id n) (user_id n) (channel n) (recipient n) (subject n)
    (content n) (status n) (scheduled_at n) (sent_at n) (created_at n) now
    (retry_count n) (max_retries n) (priority n) (Some now).

Definition with_retry_incremented (now : Time) (n : Notification) : Notification :=
  mkNotification (id n) (user_id n) (channel n) (recipient n) (subject n)
    (content n) (status n) (scheduled_at n) (sent_at n) (created_at n) now
    (retry_count n + 1) (max_retries n) (priority n) (last_processed_at n).

Definition set_rows (r : gmap Z Notification) (db : DB) : DB :=
  mkDB r (next_id db) (users db) (logs db).

(* --------------------------------------------------------------------- *)
(* Query helpers                                                         *)
(* --------------------------------------------------------------------- *)

Section OrderBy.
Context {A : Type} (before : A -> A -> bool).

Fixpoint insertBy (x : A) (l : list A) : list A :=
  match l with
  | [] => [x]
  | y :: l' => if before y x then y :: insertBy x l' else x :: y :: l'
  end.

(** ORDER BY as a stable insertion sort: [before y x] keeps [y] ahead
    of a later [x]. *)
Definition orderBy (l : list A) : list A :=
  foldl (fun acc x => insertBy x acc) [] l.
End OrderBy.

Definition allRows (db : DB) : list Notification :=
  (map_to_list (rows db)).*2.


Module NotificationModel.

(** What [create] receives: every property may be [undefined]. *)
Record Input := mkInput {
  in_user_id : option Z;
  in_channel : option string;
  in_recipient : option string;
  in_subject : option string;
  in_content : option Message;
  in_status : option string;
  in_max_retries : option Z;
  in_scheduled_at : option (option Time);
  in_priority : option string
}.

(** [x || d] on a string: the empty string is falsy. *)
Definition orString (x : option string) (d : string) : string :=
  match x with
  | Some s => if String.eqb s "" then d else s
  | None => d
  end.

(** [x || null] on a string. *)
Definition orNullString (x : option string) : option string :=
  match x with
  | Some s => if String.eqb s "" then None else Some s
  | None => None
  end.

(** [x || d] on a number: zero is falsy. *)
Definition orZ (x : option Z) (d : Z) : Z :=
  match x with
  | Some z => if z =? 0 then d else z
  | None => d
  end.

Definition orNullZ (x : option Z) : option Z :=
  match x with
  | Some z => if z =? 0 then None else Some z
  | None => None
  end.

Definition fits (limit : nat) (s : string) : bool :=
  Nat.leb (String.length s) limit.

(** INSERT INTO notifications (user_id, channel, recipient, subject,
    content, status, max_retries, scheduled_at) ... RETURNING *.
    The statement fails on a timestamp the store cannot parse
    ([Some None]), on a NOT NULL column left null, on a value longer
    than its VARCHAR, on a [user_id] that is not a user and on a
    primary key already taken; once the statement runs the sequence
    has advanced, also when a constraint then rejects the row. The
    columns not listed take their defaults. *)
Definition create (now : Time) (n : Input) (db : DB) : Throws Notification * DB :=
  let uid := orNullZ (in_user_id n) in
  let sj := orNullString (in_subject n) in
  let st := orString (in_status n) "pending" in
  let key := next_id db in
  let db1 := mkDB (rows db) (key + 1) (users db) (logs db) in
  let sched := match in_scheduled_at n with
               | Some (Some t) => Some t
               | Some None => None
               | None => Some now
               end in
  match sched with
  | None => (Throw "invalid input syntax for type timestamp", db)
  | Some t =>
      match in_channel n, in_recipient n, in_content n with
      | Some ch, Some rc, Some ct =>
          let fk := match uid with
                    | Some u => bool_decide (u ∈ users db)
                    | None => true
                    end in
          if fits 50 ch && fits 255 rc && fits 50 st && fk
             && from_option (fits 500) true sj
             && bool_decide (rows db !! key = None)
          then
            let row := mkNotification key uid ch rc sj ct st t None now now 0
                         (orZ (in_max_retries n) 3) None None in
            (Ok row, mkDB (<[key := row]> (rows db)) (key + 1) (users db) (logs db))
          else (Throw "insert into notifications violates a constraint", db1)
      | _, _, _ => (Throw "null value violates not-null constraint", db1)
      end
  end.

Definition findById (id : Z) (db : DB) : option Notification :=
  rows db !! id.

(** UPDATE notifications SET status = $1, updated_at = CURRENT_TIMESTAMP,
    sent_at = $2 WHERE id = $3, with
    [$2 = status === "sent" ? new Date() : null]. *)
Definition updateStatus (now : Time) (id : Z) (st : string) (db : DB) : Throws DB :=
  if fits 50 st
  then Ok (set_rows (alter (statusUpdate now st) id (rows db)) db)
  else Throw "value too long for type character varying(50)".

Definition updateLastProcessed (now : Time) (id : Z) (db : DB) : DB :=
  set_rows (alter (with_last_processed now) id (rows db)) db.

Definition incrementRetryCount (now : Time) (id : Z) (db : DB) : DB :=
  set_rows (alter (with_retry_incremented now) id (rows db)) db.




(** SELECT * FROM notifications WHERE status = 'pending'
    AND scheduled_at <= CURRENT_TIMESTAMP ORDER BY scheduled_at ASC
    LIMIT $1. *)
Definition isDue (now : Time) (n : Notification) : bool :=
  String.eqb (status n) "pending" && (scheduled_at n <=? now).

Definition scheduledAsc (a b : Notification) : bool :=
  scheduled_at a <=? scheduled_at b.

Definition getPendingNotifications (now : Time) (limit : Z) (db : DB)
    : Throws (list Notification) :=
  if limit <? 0 then Throw "LIMIT must not be negative"
  else Ok (take (Z.to_nat limit)
             (orderBy scheduledAsc (List.filter (isDue now) (allRows db)))).

(** SELECT * FROM notifications WHERE status = 'failed'
    AND COALESCE(retry_count, 0) < COALESCE(max_retries, 3)
    ORDER BY updated_at ASC LIMIT $1. *)
Definition isRetryable (n : Notification) : bool :=
  String.eqb (status n) "failed" && (retry_count n <? max_retries n).

Definition updatedAsc (a b : Notification) : bool :=
  updated_at a <=? updated_at b.

Definition getFailedNotifications (limit : Z) (db : DB) : Throws (list Notification) :=
  if limit <? 0 then Throw "LIMIT must not be negative"
  else Ok (take (Z.to_nat limit)
             (orderBy updatedAsc (List.filter isRetryable (allRows db)))).

Definition createdDesc (a b : Notification) : bool :=
  created_at b <=? created_at a.

(** [list(limit, offset)] without a status filter:
    SELECT n.* ... ORDER BY n.created_at DESC LIMIT $2 OFFSET $3.
    The store rejects a negative LIMIT or OFFSET; the statement is read
    as it is written, with the unused first parameter accepted. Rows of
    equal [created_at] come in the order of the scan. *)
Definition list (limit offset : Z) (db : DB) : Throws (list Notification) :=
  if (limit <? 0) || (offset <? 0)
  then Throw "LIMIT and OFFSET must not be negative"
  else Ok (take (Z.to_nat limit) (drop (Z.to_nat offset) (orderBy createdDesc (allRows db)))).


End NotificationModel.

Module NotificationLogModel.

(** INSERT INTO notification_logs (...) RETURNING *: rejected when the
    notification does not exist (foreign key) or the status tag is
    longer than its VARCHAR(50). *)
Definition create (l : NotificationLog) (db : DB) : Throws DB :=
  if bool_decide (is_Some (rows db !! notification_id l))
     && NotificationModel.fits 50 (log_status l)
  then Ok (mkDB (rows db) (next_id db) (users db) (l :: logs db))
  else Throw "insert into notification_logs violates a constraint".

Definition entry (nid : Z) (st msg : string) : NotificationLog :=
  mkLog nid st msg None None.

End NotificationLogModel.


(* --------------------------------------------------------------------- *)
(* Strings as JavaScript uses them (ASCII)                                *)
(* --------------------------------------------------------------------- *)

Definition lowerAscii (c : ascii) : ascii :=
  let n := nat_of_ascii c in
  if (Nat.leb 65 n && Nat.leb n 90)%bool then ascii_of_nat (n + 32) else c.

Fixpoint toLowerCase (s : string) : string :=
  match s with
  | EmptyString => EmptyString
  | String c r => String (lowerAscii c) (toLowerCase r)
  end.

Definition isDigit (c : ascii) : bool :=
  let n := nat_of_ascii c in (Nat.leb 48 n && Nat.leb n 57)%bool.

Definition isWhiteSpace (c : ascii) : bool :=
  let n := nat_of_ascii c in ((Nat.leb 9 n && Nat.leb n 13) || Nat.eqb n 32)%bool.

(** [s.startsWith(p)] *)
Fixpoint startsWith (s p : string) {struct p} : bool :=
  match p with
  | EmptyString => true
  | String b p' =>
      match s with
      | EmptyString => false
      | String a s' => Ascii.eqb a b && startsWith s' p'
      end
  end.

Definition digitValue (radix : Z) (c : ascii) : option Z :=
  let n := Z.of_nat (nat_of_ascii c) in
  let v := if (48 <=? n) && (n <=? 57) then Some (n - 48)
           else if (97 <=? n) && (n <=? 122) then Some (n - 87)
           else if (65 <=? n) && (n <=? 90) then Some (n - 55)
           else None in
  match v with
  | Some d => if d <? radix then Some d else None
  | None => None
  end.

(** The longest prefix of digits of the radix, read as a number. *)
Fixpoint parseDigits (radix : Z) (s : string) (acc : option Z) : option Z :=
  match s with
  | EmptyString => acc
  | String c r =>
      match digitValue radix c with
      | Some d => parseDigits radix r (Some (from_option (fun a => a * radix) 0 acc + d))
      | None => acc
      end
  end.

Fixpoint trimStart (s : string) : string :=
  match s with
  | String c r => if isWhiteSpace c then trimStart r else s
  | EmptyString => s
  end.

(** [Number.parseInt(s)] with no radix; [None] is [NaN]. *)
Definition parseInt (s : string) : option Z :=
  let s1 := trimStart s in
  let '(neg, s2) := match s1 with
                    | String "-" r => (true, r)
                    | String "+" r => (false, r)
                    | _ => (false, s1)
                    end in
  let '(radix, s3) := match s2 with
                      | String "0" (String "x" r) => (16, r)
                      | String "0" (String "X" r) => (16, r)
                      | _ => (10, s2)
                      end in
  match parseDigits radix s3 None with
  | Some v => Some (if neg then - v else v)
  | None => None
  end.

(* --------------------------------------------------------------------- *)
(* Channel adapters (services/channels)                                   *)
(* --------------------------------------------------------------------- *)

(** What the provider behind an adapter does with one request: it accepts
    the message, rejects it (invalid number, unregistered token, HTTP
    error status), or cannot be reached (network failure). *)
Inductive ProviderOutcome : Type :=
| Accepted (ref : string)
| Rejected (reason : string)
| Unreachable (reason : string).

(** Credentials found in the environment when the services are built. *)
Record Adapters := mkAdapters {
  email_configured : bool;
  sms_configured : bool;
  push_configured : bool;
  telegram_configured : bool
}.

Definition reasonOf (o : ProviderOutcome) : string :=
  match o with
  | Accepted r => r
  | Rejected r => r
  | Unreachable r => r
  end.

Module EmailService.
(** [sendEmail] wraps every failure of [sendMail] in a new Error. *)
Definition send (cfg : Adapters) (o : ProviderOutcome) : Throws SendResult :=
  if email_configured cfg then
    match o with
    | Accepted ref => Ok (mkSendResult true (Some ref) None)
    | _ => Throw ("Email delivery failed: " ++ reasonOf o)
    end
  else Throw "Email service is not configured. Please check SMTP settings.".
End EmailService.

Module SMSService.
(** [sendSMS] catches the gateway's error and returns it in the
    result object. *)
Definition send (cfg : Adapters) (o : ProviderOutcome) : Throws SendResult :=
  if sms_configured cfg then
    match o with
    | Accepted ref => Ok (mkSendResult true (Some ref) None)
    | _ => Ok (mkSendResult false None (Some (reasonOf o)))
    end
  else Throw "SMS service is not configured. Please check Twilio settings.".

Fixpoint digitsOnly (s : string) : string :=
  match s with
  | EmptyString => EmptyString
  | String c r => if isDigit c then String c (digitsOnly r) else digitsOnly r
  end.

(** [formatPhoneNumber]: [phoneNumber.replace(/\D/g, "")], then the
    two prefix rules. *)
Definition formatPhoneNumber (phoneNumber : string) : string :=
  let cleaned := digitsOnly phoneNumber in
  if Nat.eqb (String.length cleaned) 10 then "+1" ++ cleaned
  else if Nat.ltb 10 (String.length cleaned) && negb (startsWith phoneNumber "+")
       then "+" ++ cleaned
       else phoneNumber.

(** [sendSMS(options)], the entry point of the direct SMS routes. *)
Definition sendSMS (cfg : Adapters) (o : ProviderOutcome) : Throws SendResult :=
  if sms_configured cfg then
    match o with
    | Accepted ref => Ok (mkSendResult true (Some ref) None)
    | _ => Ok (mkSendResult false None (Some (reasonOf o)))
    end
  else Throw "SMS service is not configured. Please check Twilio settings.".

(** [sendBulk(messages)]: one gateway outcome per message; an exception
    of [sendSMS] becomes a failed result. *)
Definition sendBulk (cfg : Adapters) (outcomes : list ProviderOutcome)
    : Throws (list SendResult) :=
  if sms_configured cfg then
    Ok (List.map (fun o => match sendSMS cfg o with
                           | Ok r => r
                           | Throw e => mkSendResult false None (Some e)
                           end) outcomes)
  else Throw "SMS service is not configured. Please check Twilio settings.".

(** [validatePhoneNumber]: between 10 and 15 digits. *)
Definition validatePhoneNumber (phoneNumber : string) : bool :=
  let cleaned := digitsOnly phoneNumber in
  Nat.leb 10 (String.length cleaned) && Nat.leb (String.length cleaned) 15.
End SMSService.

Module PushService.
(** [sendPush] also catches the provider's error and returns it. *)
Definition send (cfg : Adapters) (o : ProviderOutcome) : Throws SendResult :=
  if push_configured cfg then
    match o with
    | Accepted ref => Ok (mkSendResult true (Some ref) None)
    | _ => Ok (mkSendResult false None (Some (reasonOf o)))
    end
  else Throw "Push service is not configured. Please check Firebase settings.".
End PushService.

Module SlackService.
Definition send (o : ProviderOutcome) : Throws SendResult :=
  match o with
  | Accepted _ => Ok (mkSendResult true None None)
  | Rejected statusText => Throw ("Slack webhook failed: " ++ statusText)
  | Unreachable e => Throw e
  end.
End SlackService.

Module TelegramService.
Definition send (cfg : Adapters) (o : ProviderOutcome) : Throws SendResult :=
  if telegram_configured cfg then
    match o with
    | Accepted ref => Ok (mkSendResult true (Some ref) None)
    | Rejected description => Throw ("Telegram API error: " ++ description)
    | Unreachable e => Throw e
    end
  else Throw "Telegram service not configured".
End TelegramService.

(* --------------------------------------------------------------------- *)
(* Retry policy (NotificationQueueProcessor.retryConfigs)                 *)
(* --------------------------------------------------------------------- *)

Inductive BackoffType : Type := exponential | fixed.

Record RetryConfig := mkRetryConfig {
  maxRetries : Z;
  backoffType : BackoffType;
  backoffDelay : Z;
  maxBackoffDelay : option Z
}.

(** Reading a property of an object literal by a computed key finds the
    literal's own entry, a member inherited from [Object.prototype], or
    nothing ([undefined]). *)
Inductive Lookup (A : Type) : Type :=
| Own (a : A)
| Inherited
| Absent.
Arguments Own {A} a.
Arguments Inherited {A}.
Arguments Absent {A}.

Definition objectPrototypeKeys : list string :=
  ["constructor"; "__proto__"; "hasOwnProperty"; "isPrototypeOf";
   "propertyIsEnumerable"; "toLocaleString"; "toString"; "valueOf";
   "__defineGetter__"; "__defineSetter__"; "__lookupGetter__";
   "__lookupSetter__"].

Definition inherited (k : string) : bool :=
  existsb (String.eqb k) objectPrototypeKeys.

Definition retryConfigs (ch : string) : Lookup RetryConfig :=
  if String.eqb ch "email" then Own (mkRetryConfig 5 exponential 2000 (Some 300000))
  else if String.eqb ch "sms" then Own (mkRetryConfig 3 exponential 5000 (Some 600000))
  else if String.eqb ch "push" then Own (mkRetryConfig 4 exponential 1000 (Some 120000))
  else if String.eqb ch "slack" then Own (mkRetryConfig 3 fixed 10000 None)
  else if String.eqb ch "telegram" then Own (mkRetryConfig 3 fixed 10000 None)
  else if inherited ch then Inherited
  else Absent.

(** [retryConfig.maxBackoffDelay || retryConfig.backoffDelay * 10] *)
Definition backoffCap (c : RetryConfig) : Z :=
  NotificationModel.orZ (maxBackoffDelay c) (backoffDelay c * 10).

(** The delay computed at the head of [scheduleRetry], for a retry
    number [retryCount >= 1] (the handler passes [retry_count + 1]):
    the product with a power of two is exact in floating point. *)
Definition retryDelay (c : RetryConfig) (retryCount : Z) : Z :=
  match backoffType c with
  | exponential => Z.min (backoffDelay c * 2 ^ (retryCount - 1)) (backoffCap c)
  | fixed => backoffDelay c
  end.

(** [priorityMap[priority.toLowerCase()] || 0]; [None] stands for the
    inherited member that is not a number. *)
Definition getPriority (p : string) : option Z :=
  let k := toLowerCase p in
  if String.eqb k "urgent" then Some 10
  else if String.eqb k "high" then Some 5
  else if String.eqb k "normal" then Some 0
  else if String.eqb k "low" then Some (-5)
  else if inherited k then None
  else Some 0.

(* --------------------------------------------------------------------- *)
(* The durable queue                                                      *)
(* --------------------------------------------------------------------- *)

Record NotificationJob := mkJob {
  notificationId : Z;
  job_channel : string;
  job_recipient : string;
  job_subject : option string;
  job_content : Message;
  job_userId : option Z;
  job_priority : string
}.

Record QueuedJob := mkQueued {
  jobId : string;
  jobName : string;
  data : NotificationJob;
  opt_priority : option Z;
  availableAt : Time
}.

(** The whole system: the relational store, the broker's job sets
    (newest first for the finished ones) and the adapters' credentials. *)
Record State := mkState {
  db : DB;
  waiting : list QueuedJob;
  active : list QueuedJob;
  completed : list QueuedJob;
  failed : list QueuedJob;
  paused : bool;
  adapters : Adapters
}.

Definition set_db (d : DB) (s : State) : State :=
  mkState d (waiting s) (active s) (completed s) (failed s) (paused s) (adapters s).

Definition hasJob (k : string) (l : list QueuedJob) : bool :=
  existsb (fun j => String.eqb (jobId j) k) l.

Definition findJob (k : string) (l : list QueuedJob) : option QueuedJob :=
  find (fun j => String.eqb (jobId j) k) l.

Definition removeJob (k : string) (l : list QueuedJob) : list QueuedJob :=
  filter (fun j => String.eqb (jobId j) k = false) l.

Module Queue.

(** Modelled from the spec: the broker is the BullMQ library, which is
    not part of the repository. Section 4.3: enqueue with an integer
    priority and an optional delay; a caller-provided job id is
    deduplicated, so that no second job is created while one with the
    same id is waiting, delayed or being processed. *)
Definition add (now : Time) (name : string) (d : NotificationJob)
    (delay : Z) (prio : option Z) (k : string) (s : State) : State :=
  if hasJob k (waiting s) || hasJob k (active s) then s
  else mkState (db s) (waiting s ++ [mkQueued k name d prio (now + delay)])
         (active s) (completed s) (failed s) (paused s) (adapters s).

(** Modelled from the spec: pause stops handing out new jobs, resume
    undoes it. *)
Definition pause (s : State) : State :=
  mkState (db s) (waiting s) (active s) (completed s) (failed s) true (adapters s).

Definition resume (s : State) : State :=
  mkState (db s) (waiting s) (active s) (completed s) (failed s) false (adapters s).

(** Modelled from the spec: [clean(0, 0, "failed")] drops the failed
    jobs of the broker. *)
Definition cleanFailed (s : State) : State :=
  mkState (db s) (waiting s) (active s) (completed s) [] (paused s) (adapters s).

(** Modelled from the spec: [job.retry()] hands a failed job back to
    the waiting set. *)
Definition retry (now : Time) (j : QueuedJob) (s : State) : State :=
  mkState (db s)
    (waiting s ++ [mkQueued (jobId j) (jobName j) (data j) (opt_priority j) now])
    (active s) (completed s) (removeJob (jobId j) (failed s)) (paused s) (adapters s).

(** Modelled from the spec: a worker takes a job that is eligible (its
    delay has elapsed, the queue is not paused); which eligible job is
    handed out is the caller's choice here. *)
Definition take (now : Time) (k : string) (s : State) : option (QueuedJob * State) :=
  match findJob k (waiting s) with
  | Some j =>
      if negb (paused s) && (availableAt j <=? now)
      then Some (j, mkState (db s) (removeJob k (waiting s)) (j :: active s)
                      (completed s) (failed s) (paused s) (adapters s))
      else None
  | None => None
  end.

(** The processor returned: [removeOnComplete: 100]. *)
Definition moveToCompleted (j : QueuedJob) (s : State) : State :=
  mkState (db s) (waiting s) (removeJob (jobId j) (active s))
    (List.firstn 100 (j :: completed s)) (failed s) (paused s) (adapters s).

(** The processor threw and [attempts: 1] leaves the broker no retry
    of its own: [removeOnFail: 50]. *)
Definition moveToFailed (j : QueuedJob) (s : State) : State :=
  mkState (db s) (waiting s) (removeJob (jobId j) (active s))
    (completed s) (List.firstn 50 (j :: failed s)) (paused s) (adapters s).

(** Modelled from the spec: [addBulk] enqueues the jobs of one call in
    order, each as [add] would. *)
Definition addBulk (now : Time) (jobs : list (string * NotificationJob * option Z))
    (s : State) : State :=
  foldl (fun acc j => add now j.1.1 j.1.2 0 j.2 j.1.1 acc) s jobs.

End Queue.

(* --------------------------------------------------------------------- *)
(* Effects: a computation reads and writes the state and may throw; what *)
(* it wrote before throwing stays written.                               *)
(* --------------------------------------------------------------------- *)

Definition Eff (A : Type) : Type := State -> Throws A * State.

#[global] Instance eff_ret : MRet Eff := fun A a s => (Ok a, s).
#[global] Instance eff_bind : MBind Eff := fun A B k m s =>
  match m s with
  | (Ok a, s') => k a s'
  | (Throw e, s') => (Throw e, s')
  end.

Definition throw {A} (e : string) : Eff A := fun s => (Throw e, s).

(** [try { m } catch (error) { h(error.message) }] *)
Definition tryCatch {A} (m : Eff A) (h : string -> Eff A) : Eff A := fun s =>
  match m s with
  | (Ok a, s') => (Ok a, s')
  | (Throw e, s') => h e s'
  end.

(** A statement of the relational store that either commits or throws. *)
Definition sql (f : DB -> Throws DB) : Eff unit := fun s =>
  match f (db s) with
  | Ok d => (Ok tt, set_db d s)
  | Throw e => (Throw e, s)
  end.

Definition sql_ (f : DB -> DB) : Eff unit := fun s => (Ok tt, set_db (f (db s)) s).

Definition broker (f : State -> State) : Eff unit := fun s => (Ok tt, f s).

Definition read {A} (f : State -> A) : Eff A := fun s => (Ok (f s), s).

(** An event handler or a fire-and-forget call: its exception is logged
    to the console and lost. *)
Definition run {A} (m : Eff A) (s : State) : State := (m s).2.

(* --------------------------------------------------------------------- *)
(* NotificationQueueProcessor                                             *)
(* --------------------------------------------------------------------- *)

Module NotificationQueueProcessor.

(** [updateNotificationStatus]: three statements under one try/catch
    that only logs. *)
Definition updateNotificationStatus (now : Time) (nid : Z) (st msg : string)
    : Eff unit :=
  tryCatch
    (sql (NotificationModel.updateStatus now nid st) ≫= fun _ =>
     sql (NotificationLogModel.create (NotificationLogModel.entry nid st msg)) ≫= fun _ =>
     sql_ (NotificationModel.updateLastProcessed now nid))
    (fun _ => mret tt).

(** [scheduleRetry(jobData, retryCount, errorMessage)]; the failed
    handler, its only caller, has found the channel's policy before. *)
Definition scheduleRetry (now : Time) (jobData : NotificationJob)
    (retryCount : Z) (errorMessage : string) : Eff unit :=
  match retryConfigs (job_channel jobData) with
  | Own retryConfig =>
      let delay := retryDelay retryConfig retryCount in
      sql_ (NotificationModel.incrementRetryCount now (notificationId jobData)) ≫= fun _ =>
      sql (NotificationLogModel.create
             (NotificationLogModel.entry (notificationId jobData) "retry_scheduled"
                ("Retry " ++ showZ retryCount ++ "/" ++ showZ (maxRetries retryConfig)
                 ++ " scheduled in " ++ showZ delay ++ "ms. Previous error: "
                 ++ errorMessage))) ≫= fun _ =>
      broker (Queue.add now
                ("notification-retry-" ++ showZ (notificationId jobData)) jobData
                delay (getPriority (job_priority jobData))
                ("retry-" ++ showZ (notificationId jobData) ++ "-" ++ showZ retryCount))
  | _ => throw "Cannot read properties of undefined"
  end.

(** worker.on("completed") *)
Definition onCompleted (now : Time) (job : QueuedJob) : Eff unit :=
  updateNotificationStatus now (notificationId (data job)) "sent"
    "Notification sent successfully".

(** worker.on("failed"): the error is used for its message only. *)
Definition onFailed (now : Time) (job : QueuedJob) (errMessage : string) : Eff unit :=
  read (fun s => NotificationModel.findById (notificationId (data job)) (db s)) ≫= fun found =>
  match found with
  | None => mret tt
  | Some notification =>
      let currentRetries := retry_count notification in
      match retryConfigs (job_channel (data job)) with
      | Own retryConfig =>
          if currentRetries <? maxRetries retryConfig
          then scheduleRetry now (data job) (currentRetries + 1) errMessage
          else updateNotificationStatus now (notificationId (data job)) "failed"
                 ("Max retries (" ++ showZ (maxRetries retryConfig)
                  ++ ") exceeded. Last error: " ++ errMessage)
      | Inherited =>
          updateNotificationStatus now (notificationId (data job)) "failed"
            ("Max retries (undefined) exceeded. Last error: " ++ errMessage)
      | Absent => throw "Cannot read properties of undefined (reading 'maxRetries')"
      end
  end.

(** worker.on("stalled"): a console warning. *)
Definition onStalled (jobId : string) : Eff unit := mret tt.

(** The switch of [processNotification]. *)
Definition dispatch (cfg : Adapters) (ch : string) (o : ProviderOutcome)
    : Throws SendResult :=
  let c := toLowerCase ch in
  if String.eqb c "email" then EmailService.send cfg o
  else if String.eqb c "sms" then SMSService.send cfg o
  else if String.eqb c "push" then PushService.send cfg o
  else if String.eqb c "slack" then SlackService.send o
  else if String.eqb c "telegram" then TelegramService.send cfg o
  else Throw ("Unsupported channel: " ++ ch).

Definition invoke (ch : string) (o : ProviderOutcome) : Eff SendResult := fun s =>
  (dispatch (adapters s) ch o, s).

(** [processNotification] up to the adapter call: the row is marked as
    being processed. *)
Definition processNotification_begin (now : Time) (job : QueuedJob) : Eff unit :=
  updateNotificationStatus now (notificationId (data job)) "processing"
    "Processing notification".

(** [processNotification] from the adapter call on: whatever the
    adapter returns is logged as delivered; an exception is logged and
    thrown again. *)
Definition processNotification_send (now : Time) (job : QueuedJob)
    (o : ProviderOutcome) : Eff unit :=
  let nid := notificationId (data job) in
  let ch := job_channel (data job) in
  tryCatch
    (invoke ch o ≫= fun result =>
     sql (NotificationLogModel.create
            (mkLog nid "delivered" ("Successfully delivered via " ++ ch) None (Some result))))
    (fun message =>
       sql (NotificationLogModel.create
              (mkLog nid "error" ("Failed to send via " ++ ch ++ ": " ++ message)
                 (Some (mkErrorDetails message now)) None)) ≫= fun _ =>
       throw message).

(** A worker takes the job and starts processing it. *)
Definition claim (now : Time) (k : string) (s : State) : State :=
  match Queue.take now k s with
  | Some (job, s1) => run (processNotification_begin now job) s1
  | None => s
  end.

(** The adapter call of an active job ends; the broker files the job
    and raises the matching event. *)
Definition finish (now : Time) (k : string) (o : ProviderOutcome) (s : State) : State :=
  match findJob k (active s) with
  | Some job =>
      match processNotification_send now job o s with
      | (Ok _, s1) => run (onCompleted now job) (Queue.moveToCompleted job s1)
      | (Throw e, s1) => run (onFailed now job e) (Queue.moveToFailed job s1)
      end
  | None => s
  end.

(** [queueNotification(jobData)] returns the job id. *)
Definition queueNotification (now : Time) (jobData : NotificationJob) : Eff string :=
  let k := "notification-" ++ showZ (notificationId jobData) in
  broker (Queue.add now k jobData 0 (getPriority (job_priority jobData)) k) ≫= fun _ =>
  updateNotificationStatus now (notificationId jobData) "queued"
    "Notification queued for processing" ≫= fun _ =>
  mret k.

(** A [for] loop over a list, stopping at the first exception. *)
Fixpoint forEach {A} (f : A -> Eff unit) (l : list A) : Eff unit :=
  match l with
  | [] => mret tt
  | x :: rest => f x ≫= fun _ => forEach f rest
  end.

Definition jobKey (jobData : NotificationJob) : string :=
  "notification-" ++ showZ (notificationId jobData).

(** [queueBulkNotifications(jobsData)]: one bulk enqueue, then the
    status of every notification is set in turn. *)
Definition queueBulkNotifications (now : Time) (jobsData : list NotificationJob)
    : Eff (list string) :=
  broker (Queue.addBulk now
            (List.map (fun jd => (jobKey jd, jd, getPriority (job_priority jd))) jobsData)) ≫= fun _ =>
  forEach (fun jd => updateNotificationStatus now (notificationId jd) "queued"
                       "Notification queued for processing") jobsData ≫= fun _ =>
  mret (List.map jobKey jobsData).

Definition pauseQueue : Eff unit := broker Queue.pause.
Definition resumeQueue : Eff unit := broker Queue.resume.
Definition clearFailedJobs : Eff unit := broker Queue.cleanFailed.

Definition retryFailedJobs (now : Time) : Eff unit := fun s =>
  (Ok tt, foldl (fun acc j => Queue.retry now j acc) s (failed s)).

(** [healthCheck] reads the queue counts and the connection status. *)
Definition healthCheck (redisReady : bool) : Eff bool := mret redisReady.

End NotificationQueueProcessor.

(* --------------------------------------------------------------------- *)
(* NotificationService                                                    *)
(* --------------------------------------------------------------------- *)

(** The body of a submission as the handlers read it. Every property may
    be missing; the ones present have the JSON type the handlers expect
    (strings, an array of objects), except [message], which the
    validators read as an object and the service stores as it comes. *)
Record ChannelEntry := mkChannel {
  ch_type : option string;
  ch_recipient : option string
}.

(** A timestamp arrives as text; [parsed] is what the store makes of it. *)
Record ScheduledAt := mkScheduledAt {
  raw : string;
  parsed : option Time
}.

Record NotificationRequest := mkRequest {
  userId : option string;
  channels : option (list ChannelEntry);
  req_subject : option string;
  message : option Message;
  req_priority : option string;
  scheduledAt : option ScheduledAt
}.

Record NotificationStatus := mkStatus {
  ns_id : string;
  ns_userId : option string;
  ns_status : string;
  ns_channels : list (string * string);
  ns_createdAt : Time;
  ns_updatedAt : Time;
  ns_scheduledAt : option Time;
  ns_retryCount : Z
}.

Record Page := mkPage {
  notifications : list NotificationStatus;
  total : Z;
  page : Z;
  limit : Z;
  totalPages : option Z
}.

Module NotificationService.

Import NotificationQueueProcessor.

(** [request.scheduledAt || new Date()] as [create] receives it. *)
Definition scheduledInput (r : NotificationRequest) : option (option Time) :=
  match scheduledAt r with
  | Some sa => if String.eqb (raw sa) "" then None else Some (parsed sa)
  | None => None
  end.

Definition createInput (r : NotificationRequest) (c : ChannelEntry)
    : NotificationModel.Input :=
  NotificationModel.mkInput
    (match userId r with
     | Some u => if String.eqb u "" then None else parseInt u
     | None => None
     end)
    (ch_type c) (ch_recipient c) (req_subject r) (message r)
    (Some "pending") (Some 3) (scheduledInput r)
    (Some (NotificationModel.orString (req_priority r) "normal")).

Definition createRow (now : Time) (i : NotificationModel.Input) : Eff Notification :=
  fun s => let '(r, d) := NotificationModel.create now i (db s) in (r, set_db d s).

(** The loop of [sendNotification]: one row, one log entry and one
    job per channel, in order. *)
Fixpoint submitChannels (now : Time) (r : NotificationRequest)
    (cs : list ChannelEntry) (acc : list Notification) : Eff (list Notification) :=
  match cs with
  | [] => mret acc
  | c :: rest =>
      createRow now (createInput r c) ≫= fun notification =>
      sql (NotificationLogModel.create
             (NotificationLogModel.entry (id notification) "created"
                "Notification created and queued")) ≫= fun _ =>
      queueNotification now
        (mkJob (id notification) (channel notification) (recipient notification)
           (req_subject r) (content notification) (user_id notification)
           (NotificationModel.orString (req_priority r) "normal")) ≫= fun _ =>
      submitChannels now r rest (acc ++ [notification])
  end.

Definition sendNotification (now : Time) (r : NotificationRequest)
    : Eff NotificationStatus :=
  match channels r with
  | None => throw "request.channels is not iterable"
  | Some cs =>
      submitChannels now r cs [] ≫= fun created =>
      match created with
      | [] => throw "Cannot read properties of undefined (reading 'id')"
      | first :: _ =>
          mret (mkStatus (showZ (id first)) (userId r) "queued"
                  (List.map (fun n => (channel n, "queued")) created)
                  (created_at first) (updated_at first)
                  (match scheduledAt r with Some sa => parsed sa | None => None end) 0)
      end
  end.

Definition statusOf (n : Notification) : NotificationStatus :=
  mkStatus (showZ (id n)) (showZ <$> user_id n) (status n)
    [(channel n, status n)] (created_at n) (updated_at n)
    (Some (scheduled_at n)) (retry_count n).

Definition getNotificationStatus (key : string) : Eff (option NotificationStatus) :=
  match parseInt key with
  | None => throw "invalid input syntax for type integer: NaN"
  | Some k => read (fun s => statusOf <$> NotificationModel.findById k (db s))
  end.

(** [n.user_id?.toString() === userId] *)
Definition ownedBy (userId : string) (n : Notification) : bool :=
  match user_id n with
  | Some u => String.eqb (showZ u) userId
  | None => false
  end.

(** [Math.ceil(total / limit)]; [None] is [NaN]. *)
Definition ceilDiv (total limit : Z) : option Z :=
  if limit =? 0 then None else Some ((total + limit - 1) / limit).

Definition getUserNotifications (userId : string) (page limit : Z) : Eff Page :=
  fun s =>
    let offset := (page - 1) * limit in
    match NotificationModel.list limit offset (db s) with
    | Throw e => (Throw e, s)
    | Ok notifications =>
        let userNotifications :=
          if String.eqb userId "" then notifications
          else List.filter (ownedBy userId) notifications in
        let total := Z.of_nat (length userNotifications) in
        (Ok (mkPage (List.map statusOf userNotifications) total page limit
               (ceilDiv total limit)), s)
    end.

Definition retryNotification (now : Time) (key : string) : Eff unit :=
  match parseInt key with
  | None => throw "invalid input syntax for type integer: NaN"
  | Some notificationId =>
      read (fun s => NotificationModel.findById notificationId (db s)) ≫= fun found =>
      match found with
      | None => throw "Notification not found"
      | Some notification =>
          queueNotification now
            (mkJob (id notification) (channel notification) (recipient notification)
               (subject notification) (content notification) (user_id notification)
               (NotificationModel.orString (priority notification) "normal")) ≫= fun _ =>
          sql (NotificationLogModel.create
                 (NotificationLogModel.entry notificationId "retry_queued"
                    "Notification manually queued for retry"))
      end
  end.

End NotificationService.

(* --------------------------------------------------------------------- *)
(* HTTP control plane (routes/notifications.ts, routes/queue.ts)          *)
(* --------------------------------------------------------------------- *)

Module Routes.

Import NotificationService.

(** [isString().notEmpty()] on a property that is a string when it is
    present. *)
Definition nonEmptyString (x : option string) : bool :=
  match x with
  | Some s => negb (String.eqb s "")
  | None => false
  end.

(** [body("message.title")] and [body("message.body")]: the path is
    only there when [message] is an object. *)
Definition messageTitle (m : option Message) : option string :=
  match m with
  | Some (MsgObject t _) => t
  | _ => None
  end.

Definition messageBody (m : option Message) : option string :=
  match m with
  | Some (MsgObject _ b) => b
  | _ => None
  end.

Definition priorities : list string := ["low"; "normal"; "high"; "urgent"].

(** [isIn([...]).optional()] *)
Definition optionalIn (x : option string) (l : list string) : bool :=
  match x with
  | Some s => existsb (String.eqb s) l
  | None => true
  end.

(** [isArray().notEmpty()]. The validator library is not part of the
    repository: what its [notEmpty] answers on an array with no
    element is the parameter [emptyArrayPasses]; an array of objects
    with at least one element passes. *)
Definition arrayNotEmpty (emptyArrayPasses : bool) (x : option (list ChannelEntry)) : bool :=
  match x with
  | Some [] => emptyArrayPasses
  | Some (_ :: _) => true
  | None => false
  end.

(** The validation chain of POST /send. *)
Definition validSend (emptyArrayPasses : bool) (r : NotificationRequest) : bool :=
  nonEmptyString (userId r)
  && arrayNotEmpty emptyArrayPasses (channels r)
  && nonEmptyString (messageTitle (message r))
  && nonEmptyString (messageBody (message r))
  && optionalIn (req_priority r) priorities.

(** POST /send: the status code of the response and the state left. *)
Definition postSend (emptyArrayPasses : bool) (now : Time) (r : NotificationRequest)
    (s : State) : Z * State :=
  if validSend emptyArrayPasses r then
    match sendNotification now r s with
    | (Ok _, s') => (201, s')
    | (Throw _, s') => (500, s')
    end
  else (400, s).

(** POST /:id/retry *)
Definition postRetry (now : Time) (key : string) (s : State) : Z * State :=
  match retryNotification now key s with
  | (Ok _, s') => (200, s')
  | (Throw _, s') => (500, s')
  end.

(** GET /user/:userId?page&limit: a missing parameter has its default,
    a present one goes through [Number.parseInt]. *)
Definition getUser (userId : string) (page limit : option string) (s : State)
    : Z * option Page :=
  match from_option parseInt (Some 1) page, from_option parseInt (Some 20) limit with
  | Some p, Some l =>
      match getUserNotifications userId p l s with
      | (Ok pg, _) => (200, Some pg)
      | (Throw _, _) => (500, None)
      end
  | _, _ => (500, None)
  end.

(** GET /:id/status *)
Definition getStatus (key : string) (s : State) : Z * option NotificationStatus :=
  match getNotificationStatus key s with
  | (Ok (Some st), _) => (200, Some st)
  | (Ok None, _) => (404, None)
  | (Throw _, _) => (500, None)
  end.

(** The summary of POST /api/sms/send-bulk: [messages.length], then the
    results that succeeded and those that did not. *)
Definition bulkSummary {A} (messages : list A) (results : list SendResult) : Z * Z * Z :=
  (Z.of_nat (length messages),
   Z.of_nat (length (List.filter success results)),
   Z.of_nat (length (List.filter (fun r => negb (success r)) results))).

End Routes.

(* --------------------------------------------------------------------- *)
(* Executions                                                             *)
(* --------------------------------------------------------------------- *)

(** Everything that can happen to the system: requests of the control
    plane, the worker pool taking and finishing jobs, broker events and
    the worker's 30-second timer. A handler runs to its end before the
    next operation starts; several jobs may be active at once. *)
Inductive Op : Type :=
| Send (r : NotificationRequest)
| Retry (key : string)
| Claim (jobId : string)
| Finish (jobId : string) (o : ProviderOutcome)
| Stalled (jobId : string)
| Pause
| Resume
| ClearFailed
| RetryFailed
| HealthTick (redisReady : bool).

Definition exec (emptyArrayPasses : bool) (now : Time) (op : Op) (s : State) : State :=
  match op with
  | Send r => (Routes.postSend emptyArrayPasses now r s).2
  | Retry key => (Routes.postRetry now key s).2
  | Claim k => NotificationQueueProcessor.claim now k s
  | Finish k o => NotificationQueueProcessor.finish now k o s
  | Stalled k => run (NotificationQueueProcessor.onStalled k) s
  | Pause => run NotificationQueueProcessor.pauseQueue s
  | Resume => run NotificationQueueProcessor.resumeQueue s
  | ClearFailed => run NotificationQueueProcessor.clearFailedJobs s
  | RetryFailed => run (NotificationQueueProcessor.retryFailedJobs now) s
  | HealthTick ready => run (NotificationQueueProcessor.healthCheck ready) s
  end.

(** A run is a list of timed operations, applied left to right. *)
Definition execAll (emptyArrayPasses : bool) (tr : list (Time * Op)) (s : State) : State :=
  foldl (fun acc ev => exec emptyArrayPasses ev.1 ev.2 acc) s tr.

Definition emptyDB : DB := mkDB ∅ 1 ∅ [].

Definition initial (cfg : Adapters) : State :=
  mkState emptyDB [] [] [] [] false cfg.

Definition allConfigured : Adapters := mkAdapters true true true true.

Definition rowOf (s : State) (k : Z) : option Notification := rows (db s) !! k.

(* ===================================================================== *)
(* Reasoning about effects                                                *)
(* ===================================================================== *)

(** [hoare P m Q]: from a state satisfying [P], [m] ends (by returning
    or by throwing) in a state satisfying [Q]. *)
Definition hoare {A} (P : State -> Prop) (m : Eff A)
    (Q : Throws A -> State -> Prop) : Prop :=
  forall s, P s -> Q (m s).1 (m s).2.

(** [keeps I m]: [m] maintains [I] however it ends. *)
Definition keeps {A} (I : State -> Prop) (m : Eff A) : Prop :=
  hoare I m (fun _ => I).

(** A property of the notifications table, as a property of states. *)
Definition onRows (P : gmap Z Notification -> Prop) : State -> Prop :=
  fun s => P (rows (db s)).

(** The rows an operation is aimed at: the row found for the id in the
    path of a retry request, the notification of the job a worker takes
    or finishes. A submission creates rows of its own and is aimed at
    none. *)
Definition aimedAt (op : Op) (s : State) : list Z :=
  match op with
  | Retry key => option_list (id <$> (parseInt key ≫= fun i => rows (db s) !! i))
  | Claim k => option_list (notificationId ∘ data <$> findJob k (waiting s))
  | Finish k _ => option_list (notificationId ∘ data <$> findJob k (active s))
  | _ => []
  end.

(** The primary key column agrees with the key a row is stored under. *)
Definition keyed (m : gmap Z Notification) : Prop :=
  forall k n, m !! k = Some n -> id n = k.

(** The delivery stamp follows the current status. *)
Definition stamped (n : Notification) : Prop :=
  is_Some (sent_at n) <-> status n = "sent".

Definition allStamped (m : gmap Z Notification) : Prop :=
  forall k n, m !! k = Some n -> stamped n.

(* --------------------------------------------------------------------- *)
(* Concrete rows and requests used as test inputs                         *)
(* --------------------------------------------------------------------- *)

(** A Slack notification delivered at time 5. *)
Definition deliveredRow : Notification :=
  mkNotification 1 None "slack" "https://hooks.example/T1" (Some "Hi") (MsgText "Hello")
    "sent" 0 (Some 5) 0 5 0 3 None (Some 4).

Definition deliveredDB : DB := mkDB {[ 1 := deliveredRow ]} 2 ∅ [].

(** A validated submission to one e-mail address. *)
Definition emailRequest : NotificationRequest :=
  mkRequest (Some "u1") (Some [mkChannel (Some "email") (Some "a@b.c")])
    (Some "Hi") (Some (MsgObject (Some "Hi") (Some "Hello"))) (Some "normal") None.

Definition channelRequest (ch rcpt : string) : NotificationRequest :=
  mkRequest (Some "u1") (Some [mkChannel (Some ch) (Some rcpt)])
    (Some "Hi") (Some (MsgObject (Some "Hi") (Some "Hello"))) (Some "normal") None.

(** Submit to a Slack webhook, let a worker take the job, the webhook
    answers 200. *)
Definition deliveredTrace : list (Time * Op) :=
  [ (0, Send (channelRequest "slack" "https://hooks.example/T1"));
    (1, Claim "notification-1");
    (2, Finish "notification-1" (Accepted "ok")) ].

(** A Slack submission whose webhook cannot be reached on the first
    attempt and on each of the three retries. *)
Definition exhaustedTrace : list (Time * Op) :=
  [ (0, Send (channelRequest "slack" "https://hooks.example/T1"));
    (1, Claim "notification-1");
    (2, Finish "notification-1" (Unreachable "ECONNRESET"));
    (20000, Claim "retry-1-1");
    (20001, Finish "retry-1-1" (Unreachable "ECONNRESET"));
    (40000, Claim "retry-1-2");
    (40001, Finish "retry-1-2" (Unreachable "ECONNRESET"));
    (60000, Claim "retry-1-3");
    (60001, Finish "retry-1-3" (Unreachable "ECONNRESET")) ].

Definition statusAt (s : State) (k : Z) : option string := status <$> rowOf s k.

Definition deliveredState : State :=
  mkState deliveredDB [] [] [] [] false allConfigured.

(** The Telegram API rejects the recipient on the first attempt. *)
Definition rejectedTrace : list (Time * Op) :=
  [ (0, Send (channelRequest "telegram" "12345"));
    (1, Claim "notification-1");
    (2, Finish "notification-1" (Rejected "Bad Request: chat not found")) ].

(** The job that [scheduleRetry] hands to the broker. *)
Definition retryJobId (jd : NotificationJob) (retryCount : Z) : string :=
  "retry-" ++ showZ (notificationId jd) ++ "-" ++ showZ retryCount.

Definition retryJobName (jd : NotificationJob) : string :=
  "notification-retry-" ++ showZ (notificationId jd).

(** The first job of an e-mail notification, as [queueNotification]
    enqueues it, and the state in which its first attempt has just
    failed: the row is being processed, the broker has filed the job as
    failed. *)
Definition firstJob : QueuedJob :=
  mkQueued "notification-1" "notification-1"
    (mkJob 1 "email" "a@b.c" (Some "Hi") (MsgText "Hello") None "normal")
    (Some 0) 0.

Definition claimedRow : Notification :=
  mkNotification 1 None "email" "a@b.c" (Some "Hi") (MsgText "Hello")
    "processing" 0 None 0 8 0 3 None (Some 8).

Definition failedAttemptState : State :=
  mkState (mkDB {[ 1 := claimedRow ]} 2 ∅ []) [] [] [] [firstJob] false allConfigured.

(** An e-mail submission whose SMTP server times out on every attempt. *)
Definition timeoutTrace : list (Time * Op) :=
  [ (0, Send emailRequest);
    (1, Claim "notification-1");
    (2, Finish "notification-1" (Unreachable "ETIMEDOUT"));
    (10000, Claim "retry-1-1");
    (10001, Finish "retry-1-1" (Unreachable "ETIMEDOUT"));
    (20000, Claim "retry-1-2");
    (20001, Finish "retry-1-2" (Unreachable "ETIMEDOUT"));
    (30000, Claim "retry-1-3");
    (30001, Finish "retry-1-3" (Unreachable "ETIMEDOUT")) ].

(** An SMS submission whose number the gateway rejects. *)
Definition smsRejectedTrace : list (Time * Op) :=
  [ (0, Send (channelRequest "sms" "+15550100"));
    (1, Claim "notification-1");
    (2, Finish "notification-1" (Rejected "The 'To' number +15550100 is not a valid phone number")) ].



(* --------------------------------------------------------------------- *)
(* The validation of POST /send as the specification words it             *)
(* --------------------------------------------------------------------- *)






(** Three rows, the newest and the oldest of user 7, the one between of
    user 8. *)
Definition rowAt (k u : Z) (t : Time) : Notification :=
  mkNotification k (Some u) "email" "a@b.c" None (MsgText "Hello")
    "sent" t (Some t) t t 0 3 None (Some t).

Definition threeRowsState : State :=
  mkState (mkDB (<[1 := rowAt 1 7 10]> (<[2 := rowAt 2 8 20]> {[ 3 := rowAt 3 7 30 ]}))
             4 {[ 7; 8 ]} [])
    [] [] [] [] false allConfigured.

(* --------------------------------------------------------------------- *)
(* Properties of rows and runs used below                                 *)
(* --------------------------------------------------------------------- *)

(** The columns no statement of the dispatcher assigns after creation. *)
Definition sameIdentity (a b : Notification) : Prop :=
  id a = id b /\ user_id a = user_id b /\ channel a = channel b
  /\ recipient a = recipient b /\ subject a = subject b /\ content a = content b
  /\ scheduled_at a = scheduled_at b /\ created_at a = created_at b
  /\ max_retries a = max_retries b /\ priority a = priority b.

(** The job a manual retry enqueues for a row. *)
Definition manualRetryJob (n : Notification) : NotificationJob :=
  mkJob (id n) (channel n) (recipient n) (subject n) (content n) (user_id n) "normal".

(** Everything of a state that belongs to the broker and the adapters. *)
Definition brokerPart (s : State)
    : list QueuedJob * list QueuedJob * list QueuedJob * list QueuedJob * bool * Adapters :=
  (waiting s, active s, completed s, failed s, paused s, adapters s).

(** The two log entries of a delivery and the entry of a failed attempt,
    as [processNotification] and the completed handler write them. *)
Definition deliveredEntry (nid : Z) (ch : string) (r : SendResult) : NotificationLog :=
  mkLog nid "delivered" ("Successfully delivered via " ++ ch) None (Some r).

Definition sentEntry (nid : Z) : NotificationLog :=
  NotificationLogModel.entry nid "sent" "Notification sent successfully".

Definition errorEntry (now : Time) (nid : Z) (ch message : string) : NotificationLog :=
  mkLog nid "error" ("Failed to send via " ++ ch ++ ": " ++ message)
    (Some (mkErrorDetails message now)) None.

(** An e-mail job whose channel is written with a capital letter, being
    processed. *)
Definition capitalJob : QueuedJob :=
  mkQueued "notification-1" "notification-1"
    (mkJob 1 "Email" "a@b.c" (Some "Hi") (MsgText "Hello") None "normal")
    (Some 0) 0.

Definition capitalRow : Notification :=
  mkNotification 1 None "Email" "a@b.c" (Some "Hi") (MsgText "Hello")
    "processing" 0 None 0 8 0 3 None (Some 8).

Definition capitalState : State :=
  mkState (mkDB {[ 1 := capitalRow ]} 2 ∅ []) [] [capitalJob] [] [] false allConfigured.

(** A push job being processed. *)
Definition pushJob : QueuedJob :=
  mkQueued "notification-1" "notification-1"
    (mkJob 1 "push" "device-token" (Some "Hi") (MsgText "Hello") None "high")
    (Some 5) 0.

Definition pushRow : Notification :=
  mkNotification 1 None "push" "device-token" (Some "Hi") (MsgText "Hello")
    "processing" 0 None 0 8 0 3 None (Some 8).

Definition pushState : State :=
  mkState (mkDB {[ 1 := pushRow ]} 2 ∅ []) [] [pushJob] [] [] false allConfigured.

(** What a submission leaves of a row it created: the row as [create]
    returned it, moved to "queued" by [queueNotification]. *)
Definition queuedRow (now : Time) (n : Notification) : Notification :=
  with_last_processed now (statusUpdate now "queued" n).

(** A submission to two channels, the second without a recipient. *)
Definition halfRequest : NotificationRequest :=
  mkRequest (Some "u1")
    (Some [mkChannel (Some "slack") (Some "https://hooks.example/T1");
           mkChannel (Some "sms") None])
    (Some "Hi") (Some (MsgObject (Some "Hi") (Some "Hello"))) (Some "urgent") None.

(** The row [create] returns for the first channel of [halfRequest] on
    the empty store at time 0. *)
Definition halfRow : Notification :=
  mkNotification 1 None "slack" "https://hooks.example/T1" (Some "Hi")
    (MsgObject (Some "Hi") (Some "Hello")) "pending" 0 None 0 0 0 3 None None.

(** A job on a channel that names a member of [Object.prototype], being
    processed. *)
Definition protoJob : QueuedJob :=
  mkQueued "notification-1" "notification-1"
    (mkJob 1 "constructor" "x" (Some "Hi") (MsgText "Hello") None "normal")
    (Some 0) 0.

Definition protoRow : Notification :=
  mkNotification 1 None "constructor" "x" (Some "Hi") (MsgText "Hello")
    "processing" 0 None 0 8 0 3 None (Some 8).

Definition protoState : State :=
  mkState (mkDB {[ 1 := protoRow ]} 2 ∅ []) [] [protoJob] [] [] false allConfigured.

Definition exceededEntry (nid : Z) (message : string) : NotificationLog :=
  NotificationLogModel.entry nid "failed"
    ("Max retries (undefined) exceeded. Last error: " ++ message).

(* ===================================================================== *)
(* Rules for effects                                                      *)
(* ===================================================================== *)

Section EffectRules.
Context {A B : Type}.
Implicit Types (I P : State -> Prop).

Lemma hoare_bind P (m : Eff A) (k : A -> Eff B) Qm Q :
  hoare P m Qm ->
  (forall e s, Qm (Throw e) s -> Q (Throw e) s) ->
  (forall a, hoare (Qm (Ok a)) (k a) Q) ->
  hoare P (m ≫= k) Q.
Proof.
  intros Hm He Hk s Hs. specialize (Hm s Hs).
  unfold mbind, eff_bind. destruct (m s) as [[a|e] s1]; simpl in *.
  - apply Hk, Hm.
  - apply He, Hm.
Qed.

Lemma keeps_bind I (m : Eff A) (k : A -> Eff B) :
  keeps I m -> (forall a, keeps I (k a)) -> keeps I (m ≫= k).
Proof.
  intros Hm Hk. apply hoare_bind with (Qm := fun _ => I); auto.
Qed.

Lemma keeps_tryCatch I (m : Eff A) (h : string -> Eff A) :
  keeps I m -> (forall e, keeps I (h e)) -> keeps I (tryCatch m h).
Proof.
  intros Hm Hh s Hs. specialize (Hm s Hs). unfold tryCatch.
  destruct (m s) as [[a|e] s1]; simpl in *; [done | by apply Hh].
Qed.

Lemma keeps_ret I (a : A) : keeps I (mret a).
Proof. by intros s Hs. Qed.

Lemma keeps_throw I e : keeps I (throw (A := A) e).
Proof. by intros s Hs. Qed.

Lemma keeps_read I (f : State -> A) : keeps I (read f).
Proof. by intros s Hs. Qed.
End EffectRules.

Lemma keeps_sql I (f : DB -> Throws DB) :
  (forall s d, I s -> f (db s) = Ok d -> I (set_db d s)) -> keeps I (sql f).
Proof.
  intros H s Hs. unfold sql. destruct (f (db s)) eqn:E; simpl; [by apply H | done].
Qed.

Lemma keeps_sql_ I (f : DB -> DB) :
  (forall s, I s -> I (set_db (f (db s)) s)) -> keeps I (sql_ f).
Proof. intros H s Hs. by apply H. Qed.

Lemma keeps_broker I (f : State -> State) :
  (forall s, I s -> I (f s)) -> keeps I (broker f).
Proof. intros H s Hs. by apply H. Qed.

Lemma keeps_run {A} I (m : Eff A) s : keeps I m -> I s -> I (run m s).
Proof. intros H Hs. by apply H. Qed.

(* ===================================================================== *)
(* What the store's statements do to the rows                             *)
(* ===================================================================== *)

Lemma updateStatus_rows now k st d d' :
  NotificationModel.updateStatus now k st d = Ok d' ->
  rows d' = alter (statusUpdate now st) k (rows d).
Proof.
  unfold NotificationModel.updateStatus.
  destruct (NotificationModel.fits 50 st); [|done]. by intros [= <-].
Qed.

Lemma log_create_rows l d d' :
  NotificationLogModel.create l d = Ok d' ->
  rows d' = rows d /\ logs d' = l :: logs d /\ is_Some (rows d !! notification_id l).
Proof.
  unfold NotificationLogModel.create.
  destruct (bool_decide _) eqn:E; simpl; [|done].
  destruct (NotificationModel.fits _ _); [|done].
  intros [= <-]. simpl. by apply bool_decide_eq_true in E.
Qed.

Lemma create_ok now i d row d' :
  NotificationModel.create now i d = (Ok row, d') ->
  rows d !! next_id d = None /\ id row = next_id d
  /\ rows d' = <[next_id d := row]> (rows d)
  /\ status row = NotificationModel.orString (NotificationModel.in_status i) "pending"
  /\ sent_at row = None /\ retry_count row = 0
  /\ max_retries row = NotificationModel.orZ (NotificationModel.in_max_retries i) 3.
Proof.
  unfold NotificationModel.create.
  destruct (match NotificationModel.in_scheduled_at i with
            | Some (Some t) => Some t | Some None => None | None => Some now end);
    [|done].
  destruct (NotificationModel.in_channel i); [|done].
  destruct (NotificationModel.in_recipient i); [|done].
  destruct (NotificationModel.in_content i); [|done].
  match goal with |- (if ?c then _ else _) = _ -> _ => destruct c eqn:E end; [|done].
  intros [= <- <-]. simpl.
  repeat (apply andb_prop in E as [E ?]).
  split; [by eapply bool_decide_eq_true_1|done].
Qed.

Lemma create_throw now i d e d' :
  NotificationModel.create now i d = (Throw e, d') -> rows d' = rows d.
Proof.
  unfold NotificationModel.create.
  repeat (match goal with
          | |- context [match ?x with _ => _ end] => destruct x
          end; simpl; try done); by intros [= <- <-].
Qed.

Lemma db_set_db d s : db (set_db d s) = d.
Proof. done. Qed.

Lemma db_queue_add now name jd delay prio k s :
  db (Queue.add now name jd delay prio k s) = db s.
Proof. unfold Queue.add. by destruct (_ || _). Qed.

Lemma db_queue_retry_all now l s :
  db (foldl (fun acc j => Queue.retry now j acc) s l) = db s.
Proof. revert s. induction l as [|j l IH]; intros s; simpl; [done|]. by rewrite IH. Qed.

Lemma queue_take_db now k s job s1 :
  Queue.take now k s = Some (job, s1) ->
  db s1 = db s /\ findJob k (waiting s) = Some job.
Proof.
  unfold Queue.take. destruct (findJob k (waiting s)) as [j|]; [|done].
  destruct (_ && _); [|done]. by intros [= <- <-].
Qed.

(* ===================================================================== *)
(* Invariants of the notifications table                                  *)
(* ===================================================================== *)

(** Any property [P] of the table that survives the three UPDATE
    statements on the rows in [T] and the insertion of a fresh pending
    row is maintained by every handler that is aimed at rows in [T]. *)
Section RowsInvariant.
Variable P : gmap Z Notification -> Prop.
Variable T : Z -> Prop.
Hypothesis P_status : forall m k now st,
  T k -> P m -> P (alter (statusUpdate now st) k m).
Hypothesis P_processed : forall m k now,
  T k -> P m -> P (alter (with_last_processed now) k m).
Hypothesis P_retry : forall m k now,
  T k -> P m -> P (alter (with_retry_incremented now) k m).
Hypothesis P_insert : forall m row,
  P m -> m !! id row = None -> status row = "pending" -> sent_at row = None ->
  retry_count row = 0 -> P (<[id row := row]> m).
Hypothesis T_fresh : forall m k, P m -> m !! k = None -> T k.

Import NotificationQueueProcessor NotificationService.

Lemma keeps_log l : keeps (onRows P) (sql (NotificationLogModel.create l)).
Proof.
  apply keeps_sql. intros s d Hs Hd. apply log_create_rows in Hd as [Hd _].
  unfold onRows in *. by rewrite db_set_db, Hd.
Qed.

Lemma keeps_updateNotificationStatus now k st msg :
  T k -> keeps (onRows P) (updateNotificationStatus now k st msg).
Proof.
  intros Hk. unfold updateNotificationStatus.
  apply keeps_tryCatch; [|intros; apply keeps_ret].
  apply keeps_bind.
  { apply keeps_sql. intros s d Hs Hd. apply updateStatus_rows in Hd.
    unfold onRows in *. rewrite db_set_db, Hd. by apply P_status. }
  intros _. apply keeps_bind; [apply keeps_log|].
  intros _. apply keeps_sql_. intros s Hs. unfold onRows in *.
  rewrite db_set_db. simpl. by apply P_processed.
Qed.

Lemma keeps_queue_add now name jd delay prio k :
  keeps (onRows P) (broker (Queue.add now name jd delay prio k)).
Proof.
  apply keeps_broker. intros s Hs. unfold onRows in *. by rewrite db_queue_add.
Qed.

Lemma keeps_scheduleRetry now jd rc msg :
  T (notificationId jd) -> keeps (onRows P) (scheduleRetry now jd rc msg).
Proof.
  intros Hk. unfold scheduleRetry.
  destruct (retryConfigs (job_channel jd)); try apply keeps_throw.
  apply keeps_bind.
  { apply keeps_sql_. intros s Hs. unfold onRows in *. rewrite db_set_db. simpl.
    by apply P_retry. }
  intros _. apply keeps_bind; [apply keeps_log|].
  intros _. apply keeps_queue_add.
Qed.

Lemma keeps_onCompleted now job :
  T (notificationId (data job)) -> keeps (onRows P) (onCompleted now job).
Proof. intros Hk. by apply keeps_updateNotificationStatus. Qed.

Lemma keeps_onFailed now job msg :
  T (notificationId (data job)) -> keeps (onRows P) (onFailed now job msg).
Proof.
  intros Hk. unfold onFailed. apply keeps_bind; [apply keeps_read|].
  intros [n|]; [|apply keeps_ret].
  destruct (retryConfigs _); [| |apply keeps_throw].
  - destruct (_ <? _); [by apply keeps_scheduleRetry|].
    by apply keeps_updateNotificationStatus.
  - by apply keeps_updateNotificationStatus.
Qed.

Lemma keeps_processNotification_send now job o :
  keeps (onRows P) (processNotification_send now job o).
Proof.
  unfold processNotification_send. apply keeps_tryCatch.
  - apply keeps_bind; [by intros s Hs|]. intros r. apply keeps_log.
  - intros e. apply keeps_bind; [apply keeps_log|]. intros _. apply keeps_throw.
Qed.

Lemma keeps_queueNotification now jd :
  T (notificationId jd) -> keeps (onRows P) (queueNotification now jd).
Proof.
  intros Hk. unfold queueNotification.
  apply keeps_bind; [apply keeps_queue_add|]. intros _.
  apply keeps_bind; [by apply keeps_updateNotificationStatus|]. intros _.
  apply keeps_ret.
Qed.

Lemma claim_keeps now k s :
  (forall i, i ∈ aimedAt (Claim k) s -> T i) ->
  onRows P s -> onRows P (claim now k s).
Proof.
  intros Hk Hs. unfold claim. destruct (Queue.take now k s) as [[job s1]|] eqn:E; [|done].
  apply queue_take_db in E as [Hdb Hj].
  apply keeps_run; [|by unfold onRows; rewrite Hdb].
  apply keeps_updateNotificationStatus, Hk. simpl. rewrite Hj. simpl. set_solver.
Qed.

Lemma finish_keeps now k o s :
  (forall i, i ∈ aimedAt (Finish k o) s -> T i) ->
  onRows P s -> onRows P (finish now k o s).
Proof.
  intros Hk Hs. unfold finish. destruct (findJob k (active s)) as [job|] eqn:Hj; [|done].
  assert (T (notificationId (data job))) as Ht.
  { apply Hk. simpl. rewrite Hj. simpl. set_solver. }
  pose proof (keeps_processNotification_send now job o s Hs) as H1.
  destruct (processNotification_send now job o s) as [[u|e] s1]; simpl in H1.
  - apply keeps_run; [by apply keeps_onCompleted | done].
  - apply keeps_run; [by apply keeps_onFailed | done].
Qed.

Lemma hoare_createRow now r c :
  hoare (onRows P) (createRow now (createInput r c))
    (fun res s => onRows P s /\ forall n, res = Ok n -> T (id n)).
Proof.
  intros s Hs. unfold createRow.
  destruct (NotificationModel.create now (createInput r c) (db s)) as [[row|e] d] eqn:E;
    simpl; unfold onRows in *; rewrite db_set_db.
  - apply create_ok in E as (Hnone & Hid & Hrows & Hst & Hsent & Hrc & _).
    simpl in Hst. rewrite <- Hid in Hnone, Hrows. split.
    + rewrite Hrows. by apply P_insert.
    + intros n [= <-]. by eapply T_fresh.
  - apply create_throw in E. rewrite E. split; [done|by intros].
Qed.

Lemma keeps_submitChannels now r cs acc :
  keeps (onRows P) (submitChannels now r cs acc).
Proof.
  revert acc. induction cs as [|c cs IH]; intros acc; simpl; [apply keeps_ret|].
  eapply hoare_bind; [apply hoare_createRow| |].
  - by intros e s [Hs _].
  - intros n s [Hs Hn]. specialize (Hn n eq_refl). revert s Hs.
    fold (keeps (onRows P)
            (sql (NotificationLogModel.create
                    (NotificationLogModel.entry (id n) "created"
                       "Notification created and queued")) ≫= fun _ =>
             queueNotification now
               (mkJob (id n) (channel n) (recipient n) (req_subject r) (content n)
                  (user_id n) (NotificationModel.orString (req_priority r) "normal")) ≫= fun _ =>
             submitChannels now r cs (acc ++ [n]))).
    apply keeps_bind; [apply keeps_log|]. intros _.
    apply keeps_bind; [by apply keeps_queueNotification|]. intros _. apply IH.
Qed.

Lemma keeps_sendNotification now r : keeps (onRows P) (sendNotification now r).
Proof.
  unfold sendNotification. destruct (channels r); [|apply keeps_throw].
  apply keeps_bind; [apply keeps_submitChannels|].
  intros [|n rest]; [apply keeps_throw | apply keeps_ret].
Qed.

Lemma retry_keeps now key s :
  (forall i, i ∈ aimedAt (Retry key) s -> T i) ->
  onRows P s -> onRows P (run (retryNotification now key) s).
Proof.
  intros Hk Hs. unfold retryNotification. simpl in Hk.
  destruct (parseInt key) as [i|]; [|done]. simpl in Hk.
  unfold run, mbind, eff_bind, read, NotificationModel.findById. simpl.
  destruct (rows (db s) !! i) as [n|] eqn:Hn; [|done]. simpl in Hk.
  assert (T (id n)) as Ht by (apply Hk; set_solver).
  apply (keeps_bind (onRows P)
           (queueNotification now
              (mkJob (id n) (channel n) (recipient n) (subject n) (content n)
                 (user_id n) (NotificationModel.orString (priority n) "normal")))
           (fun _ => sql (NotificationLogModel.create
                            (NotificationLogModel.entry i "retry_queued"
                               "Notification manually queued for retry")))); [| |done].
  - by apply keeps_queueNotification.
  - intros _. apply keeps_log.
Qed.

Lemma exec_keeps lib now op s :
  (forall i, i ∈ aimedAt op s -> T i) ->
  onRows P s -> onRows P (exec lib now op s).
Proof.
  intros Hk Hs. destruct op as [r|key|k|k o|k| | | | |ready]; simpl.
  - unfold Routes.postSend. destruct (Routes.validSend lib r); [|done].
    pose proof (keeps_sendNotification now r s Hs) as H.
    by destruct (sendNotification now r s) as [[a|e] s1].
  - unfold Routes.postRetry.
    pose proof (retry_keeps now key s Hk Hs) as H. unfold run in H.
    by destruct (retryNotification now key s) as [[a|e] s1].
  - by apply claim_keeps.
  - by apply finish_keeps.
  - done.
  - done.
  - done.
  - done.
  - unfold run, retryFailedJobs, onRows in *. simpl. by rewrite db_queue_retry_all.
  - done.
Qed.

End RowsInvariant.

(* ===================================================================== *)
(* updateStatus and the delivery stamp                                    *)
(* ===================================================================== *)

Lemma lookup_alter_row (f : Notification -> Notification) (m : gmap Z Notification) k k' n :
  alter f k m !! k' = Some n ->
  (k = k' /\ exists n0, m !! k' = Some n0 /\ n = f n0) \/ (k <> k' /\ m !! k' = Some n).
Proof.
  destruct (decide (k = k')) as [->|Hne].
  - rewrite lookup_alter_eq. destruct (m !! k') as [n0|]; simpl; [|done].
    intros [= <-]. left. eauto.
  - rewrite lookup_alter_ne by done. by right.
Qed.

Lemma keyed_invariant lib now op s :
  keyed (rows (db s)) -> keyed (rows (db (exec lib now op s))).
Proof.
  intros Hs. apply (exec_keeps keyed (fun _ => True)); try done.
  - intros m k t st _ Hm k' n Hn.
    apply lookup_alter_row in Hn as [(-> & n0 & H0 & ->)|[_ Hn]]; [cbn|]; by eapply Hm.
  - intros m k t _ Hm k' n Hn.
    apply lookup_alter_row in Hn as [(-> & n0 & H0 & ->)|[_ Hn]]; [cbn|]; by eapply Hm.
  - intros m k t _ Hm k' n Hn.
    apply lookup_alter_row in Hn as [(-> & n0 & H0 & ->)|[_ Hn]]; [cbn|]; by eapply Hm.
  - intros m row Hm Hnone _ _ _ k n Hn.
    destruct (decide (id row = k)) as [<-|Hne].
    + rewrite lookup_insert_eq in Hn. by injection Hn as <-.
    + rewrite lookup_insert_ne in Hn by done. by eapply Hm.
Qed.

Lemma execAll_invariant (I : State -> Prop) lib :
  (forall now op s, I s -> I (exec lib now op s)) ->
  forall tr s, I s -> I (execAll lib tr s).
Proof.
  intros Hstep tr. unfold execAll.
  induction tr as [|[t op] tr IH]; intros s Hs; simpl; [done|].
  apply IH, Hstep, Hs.
Qed.

Lemma reachable_keyed lib cfg tr :
  keyed (rows (db (execAll lib tr (initial cfg)))).
Proof.
  apply (execAll_invariant (fun s => keyed (rows (db s)))).
  - intros. by apply keyed_invariant.
  - intros k n Hk. simpl in Hk. by rewrite lookup_empty in Hk.
Qed.

Lemma stamped_statusUpdate now st n : stamped (statusUpdate now st n).
Proof.
  unfold stamped, statusUpdate. simpl.
  destruct (String.eqb_spec st "sent") as [->|Hne]; split; try done.
Qed.

Lemma allStamped_invariant lib now op s :
  allStamped (rows (db s)) -> allStamped (rows (db (exec lib now op s))).
Proof.
  intros Hs. apply (exec_keeps allStamped (fun _ => True)); try done.
  - intros m k t st _ Hm k' n Hn.
    apply lookup_alter_row in Hn as [(-> & n0 & H0 & ->)|[_ Hn]]; [|by eapply Hm].
    apply stamped_statusUpdate.
  - intros m k t _ Hm k' n Hn.
    apply lookup_alter_row in Hn as [(-> & n0 & H0 & ->)|[_ Hn]]; [|by eapply Hm].
    apply (Hm _ _ H0).
  - intros m k t _ Hm k' n Hn.
    apply lookup_alter_row in Hn as [(-> & n0 & H0 & ->)|[_ Hn]]; [|by eapply Hm].
    apply (Hm _ _ H0).
  - intros m row Hm Hnone Hst Hsent _ k n Hn.
    destruct (decide (id row = k)) as [<-|Hne].
    + rewrite lookup_insert_eq in Hn. injection Hn as <-.
      unfold stamped. rewrite Hst, Hsent. split; [by intros [x [=]] | done].
    + rewrite lookup_insert_ne in Hn by done. by eapply Hm.
Qed.

(** C3 as the code has it: [updateStatus] on an existing row assigns
    [sent_at] on every call, the current time when the new status is
    "sent" (whatever the stamp was before) and null for every other
    status; consequently, in every state the system reaches, [sent_at]
    is non-null exactly when the row's current status is "sent". *)
Theorem updateStatus_assigns_sent_at :
  (forall now k st d n,
      rows d !! k = Some n -> (String.length st <= 50)%nat ->
      exists d' n',
        NotificationModel.updateStatus now k st d = Ok d'
        /\ rows d' !! k = Some n'
        /\ status n' = st
        /\ sent_at n' = (if String.eqb st "sent" then Some now else None))
  /\ (forall lib cfg tr k n,
        rowOf (execAll lib tr (initial cfg)) k = Some n ->
        (is_Some (sent_at n) <-> status n = "sent")).
Proof.
  split.
  - intros now k st d n Hn Hlen. unfold NotificationModel.updateStatus, NotificationModel.fits.
    apply Nat.leb_le in Hlen. rewrite Hlen.
    eexists _, (statusUpdate now st n). split; [done|]. simpl.
    rewrite lookup_alter_eq, Hn. done.
  - intros lib cfg tr k n Hn.
    assert (allStamped (rows (db (execAll lib tr (initial cfg))))) as H.
    { apply (execAll_invariant (fun s => allStamped (rows (db s)))).
      - intros. by apply allStamped_invariant.
      - intros k' n' Hk. simpl in Hk. by rewrite lookup_empty in Hk. }
    by eapply H.
Qed.

Lemma updateStatus_assigns_sent_at_witness :
  exists d' n',
    NotificationModel.updateStatus 9 1 "queued" deliveredDB = Ok d'
    /\ rows d' !! 1 = Some n'
    /\ status n' = "queued"
    /\ sent_at n' = None.
Proof.
  apply (proj1 updateStatus_assigns_sent_at 9 1 "queued" deliveredDB deliveredRow).
  - reflexivity.
  - simpl. lia.
Defined.

(** C3, counterexample: a status other than "sent" does not leave the
    stamp alone (a delivered row loses it), and "sent" overwrites a stamp
    that is already there. *)
Lemma updateStatus_overwrites_sent_at :
  sent_at deliveredRow = Some 5
  /\ (sent_at <$> (match NotificationModel.updateStatus 9 1 "queued" deliveredDB with
                   | Ok d => rows d !! 1
                   | Throw _ => None
                   end)) = Some None
  /\ (sent_at <$> (match NotificationModel.updateStatus 9 1 "sent" deliveredDB with
                   | Ok d => rows d !! 1
                   | Throw _ => None
                   end)) = Some (Some 9).
Proof. repeat split; vm_compute; reflexivity. Qed.

(* ===================================================================== *)
(* Which operations change a row                                          *)
(* ===================================================================== *)

Lemma alter_existing (f : Notification -> Notification) (m : gmap Z Notification) k n :
  m !! k = Some n -> alter f k m = <[k := f n]> m.
Proof.
  intros Hn. apply map_eq. intros i. destruct (decide (k = i)) as [<-|Hne].
  - by rewrite lookup_alter_eq, lookup_insert_eq, Hn.
  - by rewrite lookup_alter_ne, lookup_insert_ne.
Qed.

(** On a row that exists, [updateNotificationStatus] runs its three
    statements to the end. *)
Lemma updateNotificationStatus_existing now k st msg s n :
  rows (db s) !! k = Some n -> NotificationModel.fits 50 st = true ->
  NotificationQueueProcessor.updateNotificationStatus now k st msg s =
    (Ok tt,
     set_db (mkDB (<[k := with_last_processed now (statusUpdate now st n)]> (rows (db s)))
               (next_id (db s)) (users (db s))
               (NotificationLogModel.entry k st msg :: logs (db s))) s).
Proof.
  intros Hn Hfit.
  unfold NotificationQueueProcessor.updateNotificationStatus, tryCatch, mbind, eff_bind,
    sql, sql_, NotificationModel.updateStatus, NotificationLogModel.create,
    NotificationModel.updateLastProcessed.
  rewrite Hfit. simpl.
  rewrite (alter_existing _ _ _ _ Hn), lookup_insert_eq.
  rewrite bool_decide_eq_true_2 by eauto. rewrite Hfit. simpl.
  rewrite (alter_existing _ _ k (statusUpdate now st n)) by apply lookup_insert_eq.
  by rewrite insert_insert_eq.
Qed.

Lemma row_frame lib now op s k n :
  rowOf s k = Some n -> k ∉ aimedAt op s -> rowOf (exec lib now op s) k = Some n.
Proof.
  intros Hn Hk.
  apply (exec_keeps (fun m => m !! k = Some n) (fun i => i <> k)); try done.
  - intros m i t st Hi Hm. by rewrite lookup_alter_ne.
  - intros m i t Hi Hm. by rewrite lookup_alter_ne.
  - intros m i t Hi Hm. by rewrite lookup_alter_ne.
  - intros m row Hm Hnone _ _ _. rewrite lookup_insert_ne; [done|]. congruence.
  - intros m i Hm Hnone. congruence.
  - intros i Hi ->. done.
Qed.

Lemma postRetry_existing now key k s n :
  parseInt key = Some k -> rowOf s k = Some n -> id n = k ->
  exists s',
    Routes.postRetry now key s = (200, s')
    /\ rowOf s' k = Some (with_last_processed now (statusUpdate now "queued" n)).
Proof.
  intros Hkey Hn Hid. unfold rowOf in Hn.
  unfold Routes.postRetry, NotificationService.retryNotification. rewrite Hkey.
  unfold mbind at 1. unfold eff_bind, read, NotificationModel.findById. simpl.
  rewrite Hn, Hid.
  unfold NotificationQueueProcessor.queueNotification.
  unfold mbind, eff_bind, broker. simpl.
  match goal with
  | |- context [NotificationQueueProcessor.updateNotificationStatus now k ?st ?msg ?s0] =>
      rewrite (updateNotificationStatus_existing now k st msg s0 n)
        by (by rewrite ?db_queue_add)
  end.
  unfold mret, eff_ret, sql, NotificationLogModel.create. simpl.
  rewrite lookup_insert_eq. rewrite bool_decide_eq_true_2 by eauto. simpl.
  eexists. split; [reflexivity|]. unfold rowOf. simpl. by rewrite lookup_insert_eq.
Qed.

(** C5 as the code has it: a row changes only through an operation that
    is aimed at it (a retry request for its id, a worker taking or
    finishing a job that carries its id); every other operation leaves
    the row as it is. The statuses "sent" and "failed" do not block
    these operations: POST /:id/retry answers 200 and moves an existing
    row to "queued" whatever its status was. *)
Theorem row_changes_only_when_aimed_at :
  (forall lib now op s k n,
      rowOf s k = Some n -> k ∉ aimedAt op s ->
      rowOf (exec lib now op s) k = Some n)
  /\ (forall now key k s n,
        parseInt key = Some k -> rowOf s k = Some n -> id n = k ->
        (Routes.postRetry now key s).1 = 200
        /\ statusAt (Routes.postRetry now key s).2 k = Some "queued").
Proof.
  split.
  - apply row_frame.
  - intros now key k s n Hkey Hn Hid.
    destruct (postRetry_existing now key k s n Hkey Hn Hid) as (s' & -> & Hrow).
    split; [done|]. unfold statusAt. simpl. by rewrite Hrow.
Qed.

Lemma row_changes_only_when_aimed_at_witness :
  rowOf (exec true 9 Pause deliveredState) 1 = Some deliveredRow
  /\ (Routes.postRetry 9 "1" deliveredState).1 = 200
  /\ statusAt (Routes.postRetry 9 "1" deliveredState).2 1 = Some "queued".
Proof.
  split.
  - apply (proj1 row_changes_only_when_aimed_at true 9 Pause deliveredState 1 deliveredRow).
    + reflexivity.
    + simpl. apply not_elem_of_nil.
  - apply (proj2 row_changes_only_when_aimed_at 9 "1" 1 deliveredState deliveredRow);
      reflexivity.
Defined.

(** C5, counterexample: a delivered row and a row that failed after its
    last retry are both moved to "queued" by POST /:id/retry. *)
Lemma retry_leaves_terminal_status :
  statusAt (execAll true deliveredTrace (initial allConfigured)) 1 = Some "sent"
  /\ statusAt (exec true 3 (Retry "1") (execAll true deliveredTrace (initial allConfigured))) 1
     = Some "queued"
  /\ statusAt (execAll true exhaustedTrace (initial allConfigured)) 1 = Some "failed"
  /\ statusAt (exec true 70000 (Retry "1") (execAll true exhaustedTrace (initial allConfigured))) 1
     = Some "queued".
Proof. repeat split; vm_compute; reflexivity. Qed.

(* ===================================================================== *)
(* The failed handler                                                     *)
(* ===================================================================== *)

Lemma queue_add_set_db now name jd delay prio k d s :
  Queue.add now name jd delay prio k (set_db d s)
  = set_db d (Queue.add now name jd delay prio k s).
Proof. unfold Queue.add. simpl. by destruct (_ || _). Qed.

Lemma waiting_set_db d s : waiting (set_db d s) = waiting s.
Proof. done. Qed.

Lemma scheduleRetry_existing now jd rc msg s n cfg :
  rows (db s) !! notificationId jd = Some n ->
  retryConfigs (job_channel jd) = Own cfg ->
  exists d,
    run (NotificationQueueProcessor.scheduleRetry now jd rc msg) s
    = set_db d (Queue.add now (retryJobName jd) jd (retryDelay cfg rc)
                  (getPriority (job_priority jd)) (retryJobId jd rc) s)
    /\ rows d = <[notificationId jd := with_retry_incremented now n]> (rows (db s)).
Proof.
  intros Hn Hcfg. unfold NotificationQueueProcessor.scheduleRetry. rewrite Hcfg.
  unfold run, mbind, eff_bind, sql_, sql, broker, NotificationModel.incrementRetryCount,
    NotificationLogModel.create. simpl.
  rewrite (alter_existing _ _ _ _ Hn), lookup_insert_eq.
  rewrite bool_decide_eq_true_2 by eauto. simpl.
  rewrite !queue_add_set_db.
  by eexists (mkDB (<[notificationId jd := with_retry_incremented now n]> (rows (db s)))
                _ _ _).
Qed.

Lemma onFailed_run now job msg s n cfg :
  rows (db s) !! notificationId (data job) = Some n ->
  retryConfigs (job_channel (data job)) = Own cfg ->
  run (NotificationQueueProcessor.onFailed now job msg) s
  = if retry_count n <? maxRetries cfg
    then run (NotificationQueueProcessor.scheduleRetry now (data job)
                (retry_count n + 1) msg) s
    else run (NotificationQueueProcessor.updateNotificationStatus now
                (notificationId (data job)) "failed"
                ("Max retries (" ++ showZ (maxRetries cfg)
                 ++ ") exceeded. Last error: " ++ msg)) s.
Proof.
  intros Hn Hcfg.
  unfold run, NotificationQueueProcessor.onFailed, mbind, eff_bind, read,
    NotificationModel.findById.
  simpl. rewrite Hn, Hcfg. by destruct (_ <? _).
Qed.

(** C1 as the code has it: the failed handler receives the error for its
    message only and decides by the counter alone. While the row's
    [retry_count] is below the channel policy's [maxRetries] it counts a
    retry, leaves the status as it is and hands the broker a delayed
    retry job; once [retry_count] has reached [maxRetries] it moves the
    row to "failed", changes no counter and enqueues nothing. This holds
    for every error message, hence for every class of error. *)
Theorem onFailed_decides_by_retry_count now job msg s n cfg :
  rowOf s (notificationId (data job)) = Some n ->
  retryConfigs (job_channel (data job)) = Own cfg ->
  let k := notificationId (data job) in
  let s' := run (NotificationQueueProcessor.onFailed now job msg) s in
  if retry_count n <? maxRetries cfg
  then statusAt s' k = Some (status n)
       /\ retry_count <$> rowOf s' k = Some (retry_count n + 1)
       /\ waiting s' = waiting (Queue.add now (retryJobName (data job)) (data job)
                                  (retryDelay cfg (retry_count n + 1))
                                  (getPriority (job_priority (data job)))
                                  (retryJobId (data job) (retry_count n + 1)) s)
  else statusAt s' k = Some "failed"
       /\ retry_count <$> rowOf s' k = Some (retry_count n)
       /\ waiting s' = waiting s.
Proof.
  intros Hn Hcfg k s'. subst k s'. unfold rowOf in Hn.
  rewrite (onFailed_run now job msg s n cfg Hn Hcfg).
  destruct (retry_count n <? maxRetries cfg).
  - destruct (scheduleRetry_existing now (data job) (retry_count n + 1) msg s n cfg Hn Hcfg)
      as (d & -> & Hrows).
    unfold statusAt, rowOf. simpl. rewrite Hrows, lookup_insert_eq. done.
  - unfold run. rewrite (updateNotificationStatus_existing _ _ _ _ _ n) by done.
    unfold statusAt, rowOf. simpl. rewrite lookup_insert_eq. done.
Qed.

Lemma onFailed_decides_by_retry_count_witness :
  let s' := run (NotificationQueueProcessor.onFailed 9 firstJob
                   "Email delivery failed: 550 5.1.1 user unknown") failedAttemptState in
  statusAt s' 1 = Some "processing"
  /\ retry_count <$> rowOf s' 1 = Some 1
  /\ waiting s' = waiting (Queue.add 9 "notification-retry-1" (data firstJob) 2000
                             (Some 0) "retry-1-1" failedAttemptState).
Proof.
  exact (onFailed_decides_by_retry_count 9 firstJob
           "Email delivery failed: 550 5.1.1 user unknown" failedAttemptState claimedRow
           (mkRetryConfig 5 exponential 2000 (Some 300000)) eq_refl eq_refl).
Defined.

(** C1, counterexample: the Telegram API rejects the chat id (a
    permanent error) on the first attempt; the row is not moved to
    "failed", its retry counter goes to 1 and a retry job waits in the
    broker. *)
Lemma permanent_error_is_retried :
  let s := execAll true rejectedTrace (initial allConfigured) in
  statusAt s 1 = Some "processing"
  /\ retry_count <$> rowOf s 1 = Some 1
  /\ List.map (fun j => (jobId j, availableAt j)) (waiting s) = [("retry-1-1", 10002)]
  /\ List.map log_status (logs (db s))
     = ["retry_scheduled"; "error"; "processing"; "queued"; "created"].
Proof. repeat split; vm_compute; reflexivity. Qed.

(** C2, the code at the failing input: an e-mail row is created with
    [max_retries = 3], while the failed handler counts retries up to the
    e-mail policy's 5; after the fourth failed attempt the row's
    [retry_count] is 4. *)
Theorem retry_count_exceeds_row_cap :
  let s := execAll true timeoutTrace (initial allConfigured) in
  max_retries <$> rowOf s 1 = Some 3
  /\ retry_count <$> rowOf s 1 = Some 4
  /\ statusAt s 1 = Some "processing"
  /\ List.map jobId (waiting s) = ["retry-1-4"].
Proof. repeat split; vm_compute; reflexivity. Qed.

(** Every row created by a submission carries the constant 3. *)
Lemma createInput_max_retries now r c d row d' :
  NotificationModel.create now (NotificationService.createInput r c) d = (Ok row, d') ->
  max_retries row = 3.
Proof. intros H. by apply create_ok in H as (_ & _ & _ & _ & _ & _ & ->). Qed.

(** C4, the code at the failing input: the SMS gateway rejects the
    number, [sendSMS] returns the failure as a value, the processor logs
    "delivered" and the completed handler marks the row "sent". *)
Theorem sms_rejection_marked_sent :
  let s := execAll true smsRejectedTrace (initial allConfigured) in
  statusAt s 1 = Some "sent"
  /\ List.map log_status (logs (db s))
     = ["sent"; "delivered"; "processing"; "queued"; "created"]
  /\ (success <$> (logs (db s) !! 1%nat ≫= provider_response)) = Some false
  /\ List.map jobId (completed s) = ["notification-1"]
  /\ failed s = [].
Proof. repeat split; vm_compute; reflexivity. Qed.

(** The e-mail adapter throws on the same outcome, and the SMS adapter
    never throws once it is configured. *)
Lemma sms_send_never_throws cfg o :
  sms_configured cfg = true -> exists r, SMSService.send cfg o = Ok r.
Proof. intros H. unfold SMSService.send. rewrite H. destruct o; eauto. Qed.

Lemma email_send_throws_on_rejection cfg reason :
  exists e, EmailService.send cfg (Rejected reason) = Throw e.
Proof. unfold EmailService.send. destruct (email_configured cfg); eauto. Qed.

(* ===================================================================== *)
(* Backoff                                                                *)
(* ===================================================================== *)

Lemma retryConfigs_own ch cfg :
  retryConfigs ch = Own cfg ->
  cfg = mkRetryConfig 5 exponential 2000 (Some 300000)
  \/ cfg = mkRetryConfig 3 exponential 5000 (Some 600000)
  \/ cfg = mkRetryConfig 4 exponential 1000 (Some 120000)
  \/ cfg = mkRetryConfig 3 fixed 10000 None.
Proof.
  unfold retryConfigs. repeat case_match; intros [= <-]; auto.
Qed.

Lemma queue_add_fresh now name jd delay prio k s :
  hasJob k (waiting s) = false -> hasJob k (active s) = false ->
  waiting (Queue.add now name jd delay prio k s)
  = (waiting s ++ [mkQueued k name jd prio (now + delay)])%list.
Proof. intros H1 H2. unfold Queue.add. by rewrite H1, H2. Qed.

(** C7: for every channel with a policy and every retry attempt
    [k >= 1], the delay is [min(base * 2^(k-1), cap)] for the
    exponential channels, with [base * 10] standing in for a missing
    cap, and [base] for the fixed ones; it never exceeds the channel's
    cap (nor [base * 10] where there is none); and it is the delay of
    the job that [scheduleRetry] enqueues. *)
Theorem retry_delay_formula ch cfg k :
  retryConfigs ch = Own cfg -> 1 <= k ->
  retryDelay cfg k
  = match backoffType cfg with
    | exponential =>
        Z.min (backoffDelay cfg * 2 ^ (k - 1))
          (default (backoffDelay cfg * 10) (maxBackoffDelay cfg))
    | fixed => backoffDelay cfg
    end
  /\ retryDelay cfg k <= default (backoffDelay cfg * 10) (maxBackoffDelay cfg)
  /\ (forall cap, maxBackoffDelay cfg = Some cap -> retryDelay cfg k <= cap)
  /\ (forall now jd msg s n,
        job_channel jd = ch ->
        rows (db s) !! notificationId jd = Some n ->
        hasJob (retryJobId jd k) (waiting s) = false ->
        hasJob (retryJobId jd k) (active s) = false ->
        waiting (run (NotificationQueueProcessor.scheduleRetry now jd k msg) s)
        = (waiting s ++ [mkQueued (retryJobId jd k) (retryJobName jd) jd
                           (getPriority (job_priority jd)) (now + retryDelay cfg k)])%list).
Proof.
  intros Hcfg Hk.
  assert (retryDelay cfg k <= default (backoffDelay cfg * 10) (maxBackoffDelay cfg)) as Hcap.
  { apply retryConfigs_own in Hcfg as [->|[->|[->| ->]]];
      unfold retryDelay, backoffCap; simpl; lia. }
  split; [|split; [exact Hcap|split]].
  - apply retryConfigs_own in Hcfg as [->|[->|[->| ->]]]; reflexivity.
  - intros cap E. by rewrite E in Hcap.
  - intros now jd msg s n Hch Hn Hw Ha. subst ch.
    destruct (scheduleRetry_existing now jd k msg s n cfg Hn Hcfg) as (d & -> & _).
    rewrite waiting_set_db. by apply queue_add_fresh.
Qed.

Lemma retry_delay_formula_witness :
  retryDelay (mkRetryConfig 5 exponential 2000 (Some 300000)) 3 = 8000
  /\ retryDelay (mkRetryConfig 5 exponential 2000 (Some 300000)) 3 <= 300000
  /\ waiting (run (NotificationQueueProcessor.scheduleRetry 9 (data firstJob) 3 "ETIMEDOUT")
                failedAttemptState)
     = [mkQueued "retry-1-3" "notification-retry-1" (data firstJob) (Some 0) 8009].
Proof.
  destruct (retry_delay_formula "email" (mkRetryConfig 5 exponential 2000 (Some 300000)) 3
              eq_refl ltac:(lia)) as (H1 & _ & H2 & H3).
  split; [exact H1|]. split; [exact (H2 300000 eq_refl)|].
  exact (H3 9 (data firstJob) "ETIMEDOUT" failedAttemptState claimedRow
           eq_refl eq_refl eq_refl eq_refl).
Defined.

(* ===================================================================== *)
(* Phone numbers                                                          *)
(* ===================================================================== *)

Lemma digitsOnly_filter x :
  list_ascii_of_string (SMSService.digitsOnly x)
  = List.filter isDigit (list_ascii_of_string x).
Proof.
  induction x as [|c x IH]; simpl; [done|].
  destruct (isDigit c); simpl; by rewrite IH.
Qed.

Lemma digitsOnly_idempotent x :
  SMSService.digitsOnly (SMSService.digitsOnly x) = SMSService.digitsOnly x.
Proof.
  induction x as [|c x IH]; simpl; [done|].
  destruct (isDigit c) eqn:E; simpl; [|done]. by rewrite E, IH.
Qed.

(** C9: [formatPhoneNumber] keeps the digits of its input
    ([digitsOnly] is the input filtered by [isDigit]); with exactly ten
    digits it returns "+1" followed by them; with more than ten digits
    and no leading "+" it returns "+" followed by them; otherwise it
    returns the input unchanged; and it is idempotent. *)
Theorem formatPhoneNumber_idempotent x :
  list_ascii_of_string (SMSService.digitsOnly x)
  = List.filter isDigit (list_ascii_of_string x)
  /\ (if Nat.eqb (String.length (SMSService.digitsOnly x)) 10
      then SMSService.formatPhoneNumber x = "+1" ++ SMSService.digitsOnly x
      else if Nat.ltb 10 (String.length (SMSService.digitsOnly x))
              && negb (startsWith x "+")
           then SMSService.formatPhoneNumber x = "+" ++ SMSService.digitsOnly x
           else SMSService.formatPhoneNumber x = x)
  /\ SMSService.formatPhoneNumber (SMSService.formatPhoneNumber x)
     = SMSService.formatPhoneNumber x.
Proof.
  split; [apply digitsOnly_filter|].
  assert (SMSService.formatPhoneNumber x
          = if Nat.eqb (String.length (SMSService.digitsOnly x)) 10
            then "+1" ++ SMSService.digitsOnly x
            else if Nat.ltb 10 (String.length (SMSService.digitsOnly x))
                    && negb (startsWith x "+")
                 then "+" ++ SMSService.digitsOnly x
                 else x) as Hx by reflexivity.
  destruct (Nat.eqb_spec (String.length (SMSService.digitsOnly x)) 10) as [E|E].
  - rewrite Hx. split; [done|]. unfold SMSService.formatPhoneNumber.
    change (SMSService.digitsOnly ("+1" ++ SMSService.digitsOnly x))
      with (String "1" (SMSService.digitsOnly (SMSService.digitsOnly x))).
    rewrite digitsOnly_idempotent. cbn [String.length]. rewrite E. reflexivity.
  - destruct (Nat.ltb 10 (String.length (SMSService.digitsOnly x))
              && negb (startsWith x "+")) eqn:F; rewrite Hx; (split; [done|]).
    + unfold SMSService.formatPhoneNumber.
      change (SMSService.digitsOnly ("+" ++ SMSService.digitsOnly x))
        with (SMSService.digitsOnly (SMSService.digitsOnly x)).
      rewrite digitsOnly_idempotent.
      destruct (Nat.eqb_spec (String.length (SMSService.digitsOnly x)) 10); [done|].
      change (startsWith ("+" ++ SMSService.digitsOnly x) "+") with true.
      cbn [negb]. by rewrite andb_false_r.
    + exact Hx.
Qed.

(* ===================================================================== *)
(* ORDER BY                                                               *)
(* ===================================================================== *)

Section OrderByFacts.
Context {A : Type} (before : A -> A -> bool).

Lemma insertBy_perm x l : insertBy before x l ≡ₚ x :: l.
Proof.
  induction l as [|y l IH]; simpl; [done|].
  destruct (before y x); [|done]. rewrite IH. apply Permutation_swap.
Qed.

Lemma foldl_insertBy_perm l acc :
  foldl (fun acc x => insertBy before x acc) acc l ≡ₚ (acc ++ l)%list.
Proof.
  revert acc. induction l as [|x l IH]; intros acc; simpl.
  - by rewrite app_nil_r.
  - rewrite IH, insertBy_perm. simpl. apply Permutation_middle.
Qed.

Lemma orderBy_perm l : orderBy before l ≡ₚ l.
Proof. unfold orderBy. by rewrite foldl_insertBy_perm. Qed.

Hypothesis before_total : forall a b, before a b = false -> before b a = true.
Hypothesis before_trans : forall a b c,
  before a b = true -> before b c = true -> before a c = true.

Lemma insertBy_sorted x l :
  StronglySorted (fun a b => before a b = true) l ->
  StronglySorted (fun a b => before a b = true) (insertBy before x l).
Proof.
  induction 1 as [|y l Hl IH Hy]; simpl.
  - repeat constructor.
  - destruct (before y x) eqn:E.
    + constructor; [done|]. rewrite insertBy_perm. by constructor.
    + apply before_total in E. constructor; [by constructor|].
      constructor; [done|]. eapply Forall_impl; [exact Hy|].
      intros z Hz. by eapply before_trans.
Qed.

Lemma orderBy_sorted l :
  StronglySorted (fun a b => before a b = true) (orderBy before l).
Proof.
  unfold orderBy.
  assert (forall acc, StronglySorted (fun a b => before a b = true) acc ->
            StronglySorted (fun a b => before a b = true)
              (foldl (fun acc x => insertBy before x acc) acc l)) as H.
  { induction l as [|x l IH]; intros acc Hacc; simpl; [done|].
    by apply IH, insertBy_sorted. }
  apply H. constructor.
Qed.
End OrderByFacts.

Lemma elem_of_allRows d n : n ∈ allRows d <-> exists k, rows d !! k = Some n.
Proof.
  unfold allRows. rewrite list_elem_of_fmap. split.
  - intros [[k n'] [-> Hin]]. exists k. by apply elem_of_map_to_list.
  - intros [k Hk]. exists (k, n). split; [done|]. by apply elem_of_map_to_list.
Qed.

(* ===================================================================== *)
(* Stalled rows                                                           *)
(* ===================================================================== *)




(* ===================================================================== *)
(* POST /send                                                             *)
(* ===================================================================== *)









(* ===================================================================== *)
(* Listing a user's notifications                                         *)
(* ===================================================================== *)

Lemma StronglySorted_impl {A} (R R' : A -> A -> Prop) l :
  (forall a b, R a b -> R' a b) -> StronglySorted R l -> StronglySorted R' l.
Proof.
  intros H. induction 1 as [|x l Hl IH Hx]; constructor; [done|].
  eapply Forall_impl; [exact Hx|]. intros y. apply H.
Qed.





(** The total of a page is not the user's overall count: user 7 has two
    rows, the first page of two holds one of them. *)
Example total_counts_the_page_only :
  (total <$> (Routes.getUser "7" (Some "1") (Some "2") threeRowsState).2) = Some 1
  /\ length (List.filter (NotificationService.ownedBy "7") (allRows (db threeRowsState)))
     = 2%nat
  /\ (List.map ns_id <$> (notifications <$>
        (Routes.getUser "7" (Some "1") (Some "2") threeRowsState).2)) = Some ["3"].
Proof. repeat split; vm_compute; reflexivity. Qed.

(* ===================================================================== *)
(* Invariants of the whole store                                          *)
(* ===================================================================== *)

(** Any property [I] of the store that survives each of its five
    statements is maintained by every operation of the system. *)
Section StoreInvariant.
Variable I : DB -> Prop.
Hypothesis I_status : forall d now k st d',
  I d -> NotificationModel.updateStatus now k st d = Ok d' -> I d'.
Hypothesis I_processed : forall d now k,
  I d -> I (NotificationModel.updateLastProcessed now k d).
Hypothesis I_retry : forall d now k,
  I d -> I (NotificationModel.incrementRetryCount now k d).
Hypothesis I_log : forall d l d',
  I d -> NotificationLogModel.create l d = Ok d' -> I d'.
Hypothesis I_create : forall d now i r d',
  I d -> NotificationModel.create now i d = (r, d') -> I d'.

Import NotificationQueueProcessor NotificationService.

Let J : State -> Prop := fun s => I (db s).

Lemma store_log l : keeps J (sql (NotificationLogModel.create l)).
Proof. apply keeps_sql. intros s d Hs Hd. unfold J. rewrite db_set_db. by eapply I_log. Qed.

Lemma store_updateNotificationStatus now k st msg :
  keeps J (updateNotificationStatus now k st msg).
Proof.
  unfold updateNotificationStatus.
  apply keeps_tryCatch; [|intros; apply keeps_ret].
  apply keeps_bind.
  { apply keeps_sql. intros s d Hs Hd. unfold J. rewrite db_set_db. by eapply I_status. }
  intros _. apply keeps_bind; [apply store_log|].
  intros _. apply keeps_sql_. intros s Hs. unfold J. rewrite db_set_db. by apply I_processed.
Qed.

Lemma store_queue_add now name jd delay prio k :
  keeps J (broker (Queue.add now name jd delay prio k)).
Proof. apply keeps_broker. intros s Hs. unfold J. by rewrite db_queue_add. Qed.

Lemma store_scheduleRetry now jd rc msg : keeps J (scheduleRetry now jd rc msg).
Proof.
  unfold scheduleRetry. destruct (retryConfigs (job_channel jd)); try apply keeps_throw.
  apply keeps_bind.
  { apply keeps_sql_. intros s Hs. unfold J. rewrite db_set_db. by apply I_retry. }
  intros _. apply keeps_bind; [apply store_log|]. intros _. apply store_queue_add.
Qed.

Lemma store_onFailed now job msg : keeps J (onFailed now job msg).
Proof.
  unfold onFailed. apply keeps_bind; [apply keeps_read|].
  intros [n|]; [|apply keeps_ret].
  destruct (retryConfigs _); [| |apply keeps_throw].
  - destruct (_ <? _); [apply store_scheduleRetry|apply store_updateNotificationStatus].
  - apply store_updateNotificationStatus.
Qed.

Lemma store_processNotification_send now job o :
  keeps J (processNotification_send now job o).
Proof.
  unfold processNotification_send. apply keeps_tryCatch.
  - apply keeps_bind; [by intros s Hs|]. intros r. apply store_log.
  - intros e. apply keeps_bind; [apply store_log|]. intros _. apply keeps_throw.
Qed.

Lemma store_queueNotification now jd : keeps J (queueNotification now jd).
Proof.
  unfold queueNotification.
  apply keeps_bind; [apply store_queue_add|]. intros _.
  apply keeps_bind; [apply store_updateNotificationStatus|]. intros _. apply keeps_ret.
Qed.

Lemma store_createRow now i : keeps J (createRow now i).
Proof.
  intros s Hs. unfold createRow.
  destruct (NotificationModel.create now i (db s)) as [r d] eqn:E. simpl.
  unfold J. rewrite db_set_db. by eapply I_create.
Qed.

Lemma store_submitChannels now r cs acc : keeps J (submitChannels now r cs acc).
Proof.
  revert acc. induction cs as [|c cs IH]; intros acc; simpl; [apply keeps_ret|].
  apply keeps_bind; [apply store_createRow|]. intros n.
  apply keeps_bind; [apply store_log|]. intros _.
  apply keeps_bind; [apply store_queueNotification|]. intros _. apply IH.
Qed.

Lemma store_sendNotification now r : keeps J (sendNotification now r).
Proof.
  unfold sendNotification. destruct (channels r); [|apply keeps_throw].
  apply keeps_bind; [apply store_submitChannels|].
  intros [|n rest]; [apply keeps_throw | apply keeps_ret].
Qed.

Lemma store_retryNotification now key : keeps J (retryNotification now key).
Proof.
  unfold retryNotification. destruct (parseInt key); [|apply keeps_throw].
  apply keeps_bind; [apply keeps_read|]. intros [n|]; [|apply keeps_throw].
  apply keeps_bind; [apply store_queueNotification|]. intros _. apply store_log.
Qed.

Lemma store_exec lib now op s : I (db s) -> I (db (exec lib now op s)).
Proof.
  intros Hs. change (J (exec lib now op s)).
  destruct op as [r|key|k|k o|k| | | | |ready]; simpl.
  - unfold Routes.postSend. destruct (Routes.validSend lib r); [|done].
    pose proof (store_sendNotification now r s Hs) as H.
    by destruct (sendNotification now r s) as [[a|e] s1].
  - unfold Routes.postRetry.
    pose proof (store_retryNotification now key s Hs) as H.
    by destruct (retryNotification now key s) as [[a|e] s1].
  - unfold claim. destruct (Queue.take now k s) as [[job s1]|] eqn:E; [|done].
    apply queue_take_db in E as [Hdb _].
    apply keeps_run; [apply store_updateNotificationStatus|]. unfold J. by rewrite Hdb.
  - unfold finish. destruct (findJob k (active s)) as [job|]; [|done].
    pose proof (store_processNotification_send now job o s Hs) as H1.
    destruct (processNotification_send now job o s) as [[u|e] s1]; simpl in H1.
    + apply keeps_run; [apply store_updateNotificationStatus | done].
    + apply keeps_run; [apply store_onFailed | done].
  - done.
  - done.
  - done.
  - done.
  - unfold run, retryFailedJobs, J. simpl. by rewrite db_queue_retry_all.
  - done.
Qed.

Lemma store_execAll lib tr s : I (db s) -> I (db (execAll lib tr s)).
Proof.
  apply (execAll_invariant (fun s => I (db s))). intros. by apply store_exec.
Qed.

End StoreInvariant.

(* ===================================================================== *)
(* What no operation does                                                 *)
(* ===================================================================== *)

Lemma updateStatus_other now k st d d' :
  NotificationModel.updateStatus now k st d = Ok d' ->
  logs d' = logs d /\ users d' = users d /\ next_id d' = next_id d.
Proof.
  unfold NotificationModel.updateStatus. destruct (NotificationModel.fits 50 st); [|done].
  by intros [= <-].
Qed.

Lemma create_other now i d r d' :
  NotificationModel.create now i d = (r, d') ->
  logs d' = logs d /\ users d' = users d
  /\ (next_id d' = next_id d \/ next_id d' = next_id d + 1).
Proof.
  unfold NotificationModel.create.
  repeat (match goal with
          | |- context [match ?x with _ => _ end] => destruct x
          end; simpl; try done); intros [= <- <-]; simpl; auto.
Qed.

(** X1. The log is append-only and the dispatcher never touches the
    users table: whatever operations run, the log entries that were
    there are still there, in place, under the new ones; the set of
    users is the same; the id sequence has not gone back. *)
Theorem logs_are_append_only lib tr s :
  (exists new, logs (db (execAll lib tr s)) = (new ++ logs (db s))%list)
  /\ users (db (execAll lib tr s)) = users (db s)
  /\ next_id (db s) <= next_id (db (execAll lib tr s)).
Proof.
  apply (store_execAll
           (fun d => (exists new, logs d = (new ++ logs (db s))%list)
                     /\ users d = users (db s) /\ next_id (db s) <= next_id d)).
  - intros d now k st d' (Hl & Hu & Hn) H.
    apply updateStatus_other in H as (-> & -> & ->). done.
  - intros d now k H. exact H.
  - intros d now k H. exact H.
  - intros d l d' ([new Hl] & Hu & Hn) H. unfold NotificationLogModel.create in H.
    destruct (_ && _); [|done]. injection H as <-. simpl.
    split; [|done]. exists (l :: new). by rewrite Hl.
  - intros d now i r d' (Hl & Hu & Hn) H.
    apply create_other in H as (-> & -> & Hnext). split; [done|]. split; [done|]. lia.
  - split; [by exists []|]. split; [done|lia].
Qed.

Lemma sameIdentity_refl n : sameIdentity n n.
Proof. by repeat split. Qed.

(** X2. Rows are never deleted and their identity never changes: a row
    that exists keeps existing through every run, with the same id,
    user, channel, recipient, subject, content, schedule, creation time,
    max_retries and priority; and its retry counter never goes down. *)
Theorem rows_are_never_deleted lib tr s k n :
  rowOf s k = Some n ->
  exists n', rowOf (execAll lib tr s) k = Some n'
             /\ sameIdentity n n' /\ retry_count n <= retry_count n'.
Proof.
  intros Hn.
  apply (store_execAll
           (fun d => exists n', rows d !! k = Some n'
                                /\ sameIdentity n n' /\ retry_count n <= retry_count n')).
  - intros d now i st d' (n' & Hk & Hid & Hrc) H.
    apply updateStatus_rows in H. rewrite H.
    destruct (decide (i = k)) as [->|Hne].
    + rewrite lookup_alter_eq, Hk. simpl. eexists. split; [done|]. by split.
    + rewrite lookup_alter_ne by done. eauto.
  - intros d now i (n' & Hk & Hid & Hrc). simpl.
    destruct (decide (i = k)) as [->|Hne].
    + rewrite lookup_alter_eq, Hk. simpl. eexists. split; [done|]. by split.
    + rewrite lookup_alter_ne by done. eauto.
  - intros d now i (n' & Hk & Hid & Hrc). simpl.
    destruct (decide (i = k)) as [->|Hne].
    + rewrite lookup_alter_eq, Hk. simpl. eexists. split; [done|]. split; [done|].
      simpl. lia.
    + rewrite lookup_alter_ne by done. eauto.
  - intros d l d' H Hc. apply log_create_rows in Hc as (-> & _). done.
  - intros d now i [row|e] d' (n' & Hk & Hid & Hrc) H.
    + apply create_ok in H as (Hnone & _ & -> & _).
      rewrite lookup_insert_ne by congruence. eauto.
    + apply create_throw in H as ->. eauto.
  - exists n. split; [done|]. split; [apply sameIdentity_refl|lia].
Qed.

Lemma rows_are_never_deleted_witness :
  exists n', rowOf (execAll true [(9, Retry "1"); (10, Claim "notification-1")]
                      deliveredState) 1 = Some n'
             /\ sameIdentity deliveredRow n' /\ retry_count deliveredRow <= retry_count n'.
Proof.
  apply (rows_are_never_deleted true [(9, Retry "1"); (10, Claim "notification-1")]
           deliveredState 1 deliveredRow).
  reflexivity.
Defined.

(** X3. Every log entry belongs to a notification that exists: in every
    state reached from the empty store, the notification a log entry
    refers to is in the notifications table. *)
Theorem log_entries_have_their_notification lib cfg tr l :
  l ∈ logs (db (execAll lib tr (initial cfg))) ->
  is_Some (rowOf (execAll lib tr (initial cfg)) (notification_id l)).
Proof.
  revert l.
  apply (store_execAll
           (fun d => forall l, l ∈ logs d -> is_Some (rows d !! notification_id l))).
  - intros d now k st d' Hd H l.
    pose proof (updateStatus_other _ _ _ _ _ H) as (-> & _).
    apply updateStatus_rows in H as ->. intros Hl. specialize (Hd l Hl).
    destruct (decide (k = notification_id l)) as [->|Hne].
    + rewrite lookup_alter_eq. by apply fmap_is_Some.
    + by rewrite lookup_alter_ne.
  - intros d now k Hd l Hl. specialize (Hd l Hl). simpl.
    destruct (decide (k = notification_id l)) as [->|Hne].
    + rewrite lookup_alter_eq. by apply fmap_is_Some.
    + by rewrite lookup_alter_ne.
  - intros d now k Hd l Hl. specialize (Hd l Hl). simpl.
    destruct (decide (k = notification_id l)) as [->|Hne].
    + rewrite lookup_alter_eq. by apply fmap_is_Some.
    + by rewrite lookup_alter_ne.
  - intros d l0 d' Hd H l. apply log_create_rows in H as (-> & -> & Hex).
    intros [->|Hl]%elem_of_cons; [done|by apply Hd].
  - intros d now i [row|e] d' Hd H l; pose proof (create_other _ _ _ _ _ H) as (-> & _).
    + apply create_ok in H as (Hnone & _ & -> & _). intros Hl. specialize (Hd l Hl).
      rewrite lookup_insert_ne; [done|]. intros E. rewrite <- E, Hnone in Hd. by destruct Hd.
    + apply create_throw in H as ->. apply Hd.
  - intros l Hl. simpl in Hl. by apply elem_of_nil in Hl.
Qed.

Lemma log_entries_have_their_notification_witness :
  is_Some (rowOf (execAll true deliveredTrace (initial allConfigured)) 1).
Proof.
  apply (log_entries_have_their_notification true allConfigured deliveredTrace
           (NotificationLogModel.entry 1 "sent" "Notification sent successfully")).
  vm_compute. apply list_elem_of_here.
Defined.

(* ===================================================================== *)
(* Statements of the store leave the broker alone                         *)
(* ===================================================================== *)

Section BrokerFrame.
Context {B : Type} (b : B) (part : State -> B).
Hypothesis part_set_db : forall d s, part (set_db d s) = part s.

Lemma frame_sql f : keeps (fun s => part s = b) (sql f).
Proof. apply keeps_sql. intros s d Hs _. by rewrite part_set_db. Qed.

Lemma frame_sql_ f : keeps (fun s => part s = b) (sql_ f).
Proof. apply keeps_sql_. intros s Hs. by rewrite part_set_db. Qed.

Lemma frame_updateNotificationStatus now k st msg :
  keeps (fun s => part s = b)
    (NotificationQueueProcessor.updateNotificationStatus now k st msg).
Proof.
  unfold NotificationQueueProcessor.updateNotificationStatus.
  apply keeps_tryCatch; [|intros; apply keeps_ret].
  apply keeps_bind; [apply frame_sql|]. intros _.
  apply keeps_bind; [apply frame_sql|]. intros _. apply frame_sql_.
Qed.
End BrokerFrame.

Lemma retryNotification_broker now key k s n :
  parseInt key = Some k -> rowOf s k = Some n ->
  brokerPart (Routes.postRetry now key s).2
  = brokerPart (Queue.add now ("notification-" ++ showZ (id n))
                  (mkJob (id n) (channel n) (recipient n) (subject n) (content n)
                     (user_id n) (NotificationModel.orString (priority n) "normal"))
                  0 (getPriority (NotificationModel.orString (priority n) "normal"))
                  ("notification-" ++ showZ (id n)) s).
Proof.
  intros Hkey Hn. unfold rowOf in Hn.
  set (target := brokerPart (Queue.add _ _ _ _ _ _ s)).
  assert (brokerPart (NotificationService.retryNotification now key s).2 = target) as H.
  { unfold NotificationService.retryNotification. rewrite Hkey.
    unfold mbind at 1. unfold eff_bind, read, NotificationModel.findById. simpl.
    rewrite Hn.
    apply (hoare_bind (fun s' => s' = s) _ _ (fun _ s' => brokerPart s' = target)
             (fun _ s' => brokerPart s' = target)); [| |intros _|done].
    - unfold NotificationQueueProcessor.queueNotification.
      apply (hoare_bind (fun s' => s' = s) _ _ (fun _ s' => brokerPart s' = target)
               (fun _ s' => brokerPart s' = target)); [| |intros _].
      + by intros s' ->.
      + done.
      + apply (keeps_bind (fun s' => brokerPart s' = target)).
        * by apply frame_updateNotificationStatus.
        * intros _. apply keeps_ret.
    - done.
    - by apply (frame_sql target brokerPart). }
  unfold Routes.postRetry.
  by destruct (NotificationService.retryNotification now key s) as [[a|e] s1].
Qed.

(** X4. The priority of a submission is never stored: [create] does not
    insert it, so in every state reached from the empty store every row
    has a null priority, and POST /:id/retry enqueues the job of any
    row with priority "normal" (broker priority 0), also when the row
    was submitted as urgent. *)
Theorem manual_retry_uses_normal_priority lib cfg tr now key k n :
  parseInt key = Some k ->
  rowOf (execAll lib tr (initial cfg)) k = Some n ->
  priority n = None
  /\ waiting (Routes.postRetry now key (execAll lib tr (initial cfg))).2
     = waiting (Queue.add now ("notification-" ++ showZ (id n)) (manualRetryJob n)
                  0 (Some 0) ("notification-" ++ showZ (id n))
                  (execAll lib tr (initial cfg))).
Proof.
  intros Hkey Hn.
  assert (forall k n, rows (db (execAll lib tr (initial cfg))) !! k = Some n ->
                      priority n = None) as Hall.
  { apply (store_execAll (fun d => forall k n, rows d !! k = Some n -> priority n = None)).
    - intros d t i st d' Hd H k' n' Hk. apply updateStatus_rows in H. rewrite H in Hk.
      apply lookup_alter_row in Hk as [(-> & n0 & H0 & ->)|[_ Hk]]; [cbn|]; by eapply Hd.
    - intros d t i Hd k' n' Hk. simpl in Hk.
      apply lookup_alter_row in Hk as [(-> & n0 & H0 & ->)|[_ Hk]]; [cbn|]; by eapply Hd.
    - intros d t i Hd k' n' Hk. simpl in Hk.
      apply lookup_alter_row in Hk as [(-> & n0 & H0 & ->)|[_ Hk]]; [cbn|]; by eapply Hd.
    - intros d l d' Hd H. apply log_create_rows in H as (-> & _). done.
    - intros d t i [row|e] d' Hd H k' n' Hk.
      + unfold NotificationModel.create in H.
        repeat (match type of H with
                | context [match ?x with _ => _ end] => destruct x
                end; simpl in H; try done).
        injection H as <- <-. simpl in Hk.
        destruct (decide (next_id d = k')) as [<-|Hne].
        * rewrite lookup_insert_eq in Hk. by injection Hk as <-.
        * rewrite lookup_insert_ne in Hk by done. by eapply Hd.
      + apply create_throw in H. rewrite H in Hk. by eapply Hd.
    - intros k' n' Hk. simpl in Hk. by rewrite lookup_empty in Hk. }
  pose proof (Hall k n Hn) as Hp. split; [done|].
  pose proof (retryNotification_broker now key k _ n Hkey Hn) as H.
  rewrite Hp in H. simpl in H. unfold manualRetryJob.
  by injection H as ->.
Qed.

Lemma manual_retry_uses_normal_priority_witness :
  exists n,
    rowOf (execAll true deliveredTrace (initial allConfigured)) 1 = Some n
    /\ priority n = None.
Proof.
  destruct (rowOf (execAll true deliveredTrace (initial allConfigured)) 1) as [n|] eqn:E.
  - exists n. split; [done|].
    exact (proj1 (manual_retry_uses_normal_priority true allConfigured deliveredTrace
                    9 "1" 1 n eq_refl E)).
  - vm_compute in E. discriminate E.
Defined.

(* ===================================================================== *)
(* updateNotificationStatus                                               *)
(* ===================================================================== *)




(* ===================================================================== *)
(* The end of an attempt                                                  *)
(* ===================================================================== *)

Lemma finish_returns now k o s job n r :
  findJob k (active s) = Some job ->
  rowOf s (notificationId (data job)) = Some n ->
  NotificationQueueProcessor.dispatch (adapters s) (job_channel (data job)) o = Ok r ->
  let nid := notificationId (data job) in
  let s' := NotificationQueueProcessor.finish now k o s in
  rowOf s' nid = Some (with_last_processed now (statusUpdate now "sent" n))
  /\ logs (db s') = sentEntry nid :: deliveredEntry nid (job_channel (data job)) r
                      :: logs (db s)
  /\ waiting s' = waiting s
  /\ failed s' = failed s.
Proof.
  intros Hj Hn Hd nid s'. subst nid s'. unfold rowOf in Hn.
  unfold NotificationQueueProcessor.finish. rewrite Hj.
  unfold NotificationQueueProcessor.processNotification_send, tryCatch, mbind, eff_bind,
    NotificationQueueProcessor.invoke, sql, NotificationLogModel.create.
  rewrite Hd. simpl. rewrite Hn. rewrite bool_decide_eq_true_2 by eauto. simpl.
  unfold run, NotificationQueueProcessor.onCompleted.
  match goal with
  | |- context [NotificationQueueProcessor.updateNotificationStatus now ?i ?st ?msg ?s0] =>
      rewrite (updateNotificationStatus_existing now i st msg s0 n) by done
  end.
  unfold rowOf. simpl. by rewrite lookup_insert_eq.
Qed.

(** X6. A delivery: when the adapter of an active job returns and the
    job's row exists, the row becomes "sent" with [sent_at] and
    [last_processed_at] set to the time of the return and its retry
    counter unchanged; exactly two log entries are appended, "delivered"
    with the adapter's result and then "sent"; no retry job is enqueued
    and the broker's failed set is unchanged. *)
Theorem delivery_marks_sent now k o s job n r :
  findJob k (active s) = Some job ->
  rowOf s (notificationId (data job)) = Some n ->
  NotificationQueueProcessor.dispatch (adapters s) (job_channel (data job)) o = Ok r ->
  let nid := notificationId (data job) in
  let s' := NotificationQueueProcessor.finish now k o s in
  (exists n', rowOf s' nid = Some n'
              /\ status n' = "sent" /\ sent_at n' = Some now
              /\ last_processed_at n' = Some now /\ retry_count n' = retry_count n)
  /\ logs (db s') = sentEntry nid :: deliveredEntry nid (job_channel (data job)) r
                      :: logs (db s)
  /\ waiting s' = waiting s
  /\ failed s' = failed s.
Proof.
  intros Hj Hn Hd nid s'.
  destruct (finish_returns now k o s job n r Hj Hn Hd) as (H1 & H2 & H3 & H4).
  split; [|done]. eexists. split; [exact H1|]. done.
Qed.

Lemma delivery_marks_sent_witness :
  let s' := NotificationQueueProcessor.finish 9 "notification-1" (Accepted "projects/x/messages/1")
              pushState in
  (exists n', rowOf s' 1 = Some n'
              /\ status n' = "sent" /\ sent_at n' = Some 9
              /\ last_processed_at n' = Some 9 /\ retry_count n' = 0)
  /\ logs (db s') = [sentEntry 1;
                     deliveredEntry 1 "push"
                       (mkSendResult true (Some "projects/x/messages/1") None)]
  /\ waiting s' = []
  /\ failed s' = [].
Proof.
  exact (delivery_marks_sent 9 "notification-1" (Accepted "projects/x/messages/1")
           pushState pushJob pushRow _ eq_refl eq_refl eq_refl).
Defined.

(** X7. The SMS and push adapters never report a failure to the
    dispatcher once they are configured: [sendSMS] and [sendPush] return
    the provider's error as a value, so for every outcome of the
    provider the attempt ends with the row "sent", the retry counter
    unchanged and nothing enqueued; the result logged as delivered says
    [success] exactly when the provider accepted. *)
Theorem sms_and_push_attempts_always_end_sent now k o s job n :
  findJob k (active s) = Some job ->
  rowOf s (notificationId (data job)) = Some n ->
  (toLowerCase (job_channel (data job)) = "sms" /\ sms_configured (adapters s) = true)
  \/ (toLowerCase (job_channel (data job)) = "push" /\ push_configured (adapters s) = true) ->
  let s' := NotificationQueueProcessor.finish now k o s in
  statusAt s' (notificationId (data job)) = Some "sent"
  /\ retry_count <$> rowOf s' (notificationId (data job)) = Some (retry_count n)
  /\ waiting s' = waiting s
  /\ exists r, logs (db s') !! 1%nat
               = Some (deliveredEntry (notificationId (data job)) (job_channel (data job)) r)
               /\ (success r = true <-> exists ref, o = Accepted ref).
Proof.
  intros Hj Hn Hch s'.
  assert (exists r, NotificationQueueProcessor.dispatch (adapters s)
                      (job_channel (data job)) o = Ok r
                    /\ (success r = true <-> exists ref, o = Accepted ref)) as (r & Hd & Hr).
  { unfold NotificationQueueProcessor.dispatch.
    destruct Hch as [[-> Hc]|[-> Hc]]; simpl;
      unfold SMSService.send, PushService.send; rewrite Hc;
      destruct o; eexists; (split; [reflexivity|]); simpl; split; eauto; try done;
      by intros [? [=]]. }
  destruct (finish_returns now k o s job n r Hj Hn Hd) as (H1 & H2 & H3 & _).
  subst s'. unfold statusAt. rewrite H1, H2. simpl. repeat split; try done. eauto.
Qed.

Lemma sms_and_push_attempts_always_end_sent_witness :
  let s' := NotificationQueueProcessor.finish 9 "notification-1"
              (Rejected "registration-token-not-registered") pushState in
  statusAt s' 1 = Some "sent"
  /\ retry_count <$> rowOf s' 1 = Some 0
  /\ waiting s' = [].
Proof.
  destruct (sms_and_push_attempts_always_end_sent 9 "notification-1"
              (Rejected "registration-token-not-registered") pushState pushJob pushRow
              eq_refl eq_refl (or_intror (conj eq_refl eq_refl))) as (H1 & H2 & H3 & _).
  by repeat split.
Defined.

(** X8. A failure on a channel without a retry policy is dropped: the
    policy table is read with the channel as it is written, while the
    adapters are chosen by its lower-case form, so for a channel such as
    "Email", or one that no adapter serves, the failed handler throws
    before it decides anything. The attempt leaves one "error" log
    entry; the row is exactly as it was (still "processing", never
    "failed"), and no retry is enqueued. *)
Theorem failure_without_policy_is_dropped now k o s job n e :
  findJob k (active s) = Some job ->
  rowOf s (notificationId (data job)) = Some n ->
  retryConfigs (job_channel (data job)) = Absent ->
  NotificationQueueProcessor.dispatch (adapters s) (job_channel (data job)) o = Throw e ->
  let nid := notificationId (data job) in
  let s' := NotificationQueueProcessor.finish now k o s in
  rowOf s' nid = Some n
  /\ logs (db s') = errorEntry now nid (job_channel (data job)) e :: logs (db s)
  /\ waiting s' = waiting s.
Proof.
  intros Hj Hn Hcfg Hd nid s'. subst nid s'. unfold rowOf in Hn.
  unfold NotificationQueueProcessor.finish. rewrite Hj.
  unfold NotificationQueueProcessor.processNotification_send, tryCatch, mbind, eff_bind,
    NotificationQueueProcessor.invoke, sql, NotificationLogModel.create, throw.
  rewrite Hd. simpl. rewrite Hn. rewrite bool_decide_eq_true_2 by eauto. simpl.
  unfold run, NotificationQueueProcessor.onFailed, mbind, eff_bind, read,
    NotificationModel.findById, throw. simpl.
  rewrite Hn, Hcfg. done.
Qed.

Lemma failure_without_policy_is_dropped_witness :
  let s' := NotificationQueueProcessor.finish 9 "notification-1" (Unreachable "ETIMEDOUT")
              capitalState in
  rowOf s' 1 = Some capitalRow
  /\ logs (db s') = [errorEntry 9 1 "Email" "Email delivery failed: ETIMEDOUT"]
  /\ waiting s' = [].
Proof.
  exact (failure_without_policy_is_dropped 9 "notification-1" (Unreachable "ETIMEDOUT")
           capitalState capitalJob capitalRow "Email delivery failed: ETIMEDOUT"
           eq_refl eq_refl eq_refl eq_refl).
Defined.

Lemma dispatch_unsupported cfg ch o :
  toLowerCase ch ∉ ["email"; "sms"; "push"; "slack"; "telegram"] ->
  NotificationQueueProcessor.dispatch cfg ch o = Throw ("Unsupported channel: " ++ ch).
Proof.
  intros H. unfold NotificationQueueProcessor.dispatch. cbv zeta.
  assert (forall x, x ∈ ["email"; "sms"; "push"; "slack"; "telegram"] ->
                    String.eqb (toLowerCase ch) x = false) as Hne.
  { intros x Hx. apply String.eqb_neq. intros E. apply H. by rewrite E. }
  rewrite !Hne by set_solver. done.
Qed.

(* ===================================================================== *)
(* Ids as text                                                            *)
(* ===================================================================== *)

Lemma parseDigits_uint d a :
  parseDigits 10 (NilEmpty.string_of_uint d) (Some a)
  = Some (Z.of_N (DecimalPos.Unsigned.of_lu (Decimal.rev d))
          + a * 10 ^ Z.of_N (DecimalPos.Unsigned.usize d)).
Proof.
  revert a. induction d; intros a;
    [cbn; f_equal; rewrite Z.pow_0_r; lia | ..];
    cbn [NilEmpty.string_of_uint parseDigits];
    (match goal with
     | |- context [digitValue 10 ?c] =>
         let v := eval vm_compute in (digitValue 10 c) in
         change (digitValue 10 c) with v
     end);
    cbn [from_option]; rewrite IHd;
    set (X := DecimalPos.Unsigned.of_lu (Decimal.rev d));
    unfold Decimal.rev; cbn [Decimal.revapp];
    rewrite (DecimalPos.Unsigned.of_lu_revapp d); fold X;
    cbn [DecimalPos.Unsigned.usize DecimalPos.Unsigned.of_lu];
    rewrite N2Z.inj_add, N2Z.inj_mul, N2Z.inj_pow, N2Z.inj_succ, Z.pow_succ_r by lia;
    f_equal; change (Z.of_N 10) with 10; 
    generalize (10 ^ Z.of_N (DecimalPos.Unsigned.usize d)); intros P;
    generalize (Z.of_N X); intros Y;
    (match goal with
     | |- context [Z.of_N ?n] =>
         let v := eval vm_compute in (Z.of_N n) in change (Z.of_N n) with v
     end); ring.
Qed.

Lemma parseDigits_start d :
  d <> Decimal.Nil ->
  parseDigits 10 (NilEmpty.string_of_uint d) None
  = Some (Z.of_N (Pos.of_uint d)).
Proof.
  intros Hd. rewrite DecimalPos.Unsigned.of_uint_alt.
  transitivity (parseDigits 10 (NilEmpty.string_of_uint d) (Some 0)).
  - by destruct d.
  - rewrite parseDigits_uint. f_equal. lia.
Qed.

Lemma parseInt_digits d :
  d <> Decimal.Nil ->
  parseInt (NilEmpty.string_of_uint d)
  = parseDigits 10 (NilEmpty.string_of_uint d) None
  /\ parseInt (String "-" (NilEmpty.string_of_uint d))
     = Z.opp <$> parseDigits 10 (NilEmpty.string_of_uint d) None.
Proof.
  intros Hd. unfold parseInt.
  destruct d as [|d|d|d|d|d|d|d|d|d|d]; try done;
    cbn [NilEmpty.string_of_uint trimStart];
    repeat (match goal with
            | |- context [isWhiteSpace ?c] =>
                let v := eval vm_compute in (isWhiteSpace c) in
                change (isWhiteSpace c) with v
            end); cbv beta iota zeta;
    try (split; by destruct (parseDigits 10 _ None)).
  destruct d; cbn [NilEmpty.string_of_uint]; cbv beta iota zeta; split;
    by destruct (parseDigits 10 _ None).
Qed.

Lemma parseInt_uint d :
  d <> Decimal.Nil ->
  parseInt (NilEmpty.string_of_uint d) = Some (Z.of_N (Pos.of_uint d))
  /\ parseInt (String "-" (NilEmpty.string_of_uint d)) = Some (- Z.of_N (Pos.of_uint d)).
Proof.
  intros Hd. destruct (parseInt_digits d Hd) as [-> ->].
  by rewrite (parseDigits_start d Hd).
Qed.

(** The text of an integer reads back as the integer. *)
Lemma parseInt_showZ z : parseInt (showZ z) = Some z.
Proof.
  unfold showZ. destruct z as [|p|p]; [done| |]; unfold Z.to_int, NilZero.string_of_int,
    NilZero.string_of_uint;
    pose proof (DecimalPos.Unsigned.to_uint_nonnil p) as Hp;
    destruct (parseInt_uint (Pos.to_uint p) Hp) as [H1 H2];
    rewrite DecimalPos.Unsigned.of_to in H1, H2;
    destruct (Pos.to_uint p); done.
Qed.

(* ===================================================================== *)
(* POST /:id/retry and GET /:id/status                                    *)
(* ===================================================================== *)

Ltac row_exists_store :=
  match goal with
  | |- forall d now k st d', _ -> NotificationModel.updateStatus _ _ _ _ = _ -> _ =>
      let H := fresh in
      intros ? ? ? ? ? ? H; apply updateStatus_rows in H; rewrite H;
      rewrite lookup_alter; case_decide; subst; [by apply fmap_is_Some|done]
  | |- forall d l d', _ -> NotificationLogModel.create _ _ = _ -> _ =>
      let H := fresh in
      intros ? ? ? ? H; by apply log_create_rows in H as (-> & _)
  | |- forall d now i r d', _ -> NotificationModel.create _ _ _ = _ -> _ =>
      let H := fresh in let Hd := fresh in
      intros ? ? ? [?|?] ? Hd H;
      [ apply create_ok in H as (? & _ & -> & _);
        rewrite lookup_insert_ne; [done|]; intros ->; by destruct Hd
      | by apply create_throw in H as -> ]
  | |- forall d now k, _ -> _ =>
      intros ? ? ? ?; simpl; rewrite lookup_alter; case_decide; subst;
      [by apply fmap_is_Some|done]
  end.

Lemma updateNotificationStatus_returns now k st msg s :
  (NotificationQueueProcessor.updateNotificationStatus now k st msg s).1 = Ok tt.
Proof.
  unfold NotificationQueueProcessor.updateNotificationStatus, tryCatch.
  match goal with |- context [match ?m s with _ => _ end] => destruct (m s) as [[[]|e] s1] end;
    done.
Qed.

Lemma queueNotification_returns now jd s :
  exists key, (NotificationQueueProcessor.queueNotification now jd s).1 = Ok key.
Proof.
  unfold NotificationQueueProcessor.queueNotification, mbind, eff_bind, broker.
  match goal with
  | |- context [NotificationQueueProcessor.updateNotificationStatus ?a ?b ?c ?d ?s0] =>
      pose proof (updateNotificationStatus_returns a b c d s0) as H;
      destruct (NotificationQueueProcessor.updateNotificationStatus a b c d s0) as [[[]|e] s1]
  end; [|done]. simpl. eauto.
Qed.

Lemma queueNotification_keeps_row now jd s k :
  is_Some (rows (db s) !! k) ->
  is_Some (rows (db (NotificationQueueProcessor.queueNotification now jd s).2) !! k).
Proof.
  apply (store_queueNotification (fun d => is_Some (rows d !! k))); row_exists_store.
Qed.

Lemma retryNotification_found now key k s n :
  parseInt key = Some k -> rowOf s k = Some n ->
  exists s', NotificationService.retryNotification now key s = (Ok tt, s').
Proof.
  intros Hkey Hn. unfold rowOf in Hn.
  unfold NotificationService.retryNotification. rewrite Hkey.
  unfold mbind at 1. unfold eff_bind, read, NotificationModel.findById. simpl. rewrite Hn.
  unfold mbind, eff_bind.
  match goal with
  | |- context [NotificationQueueProcessor.queueNotification now ?jd s] =>
      destruct (queueNotification_returns now jd s) as [key' Hr];
      pose proof (queueNotification_keeps_row now jd s k) as Hk;
      destruct (NotificationQueueProcessor.queueNotification now jd s) as [[a|e] s1]
  end; [|done].
  simpl in *. unfold sql, NotificationLogModel.create. simpl.
  rewrite bool_decide_eq_true_2 by (apply Hk; eauto). simpl. eauto.
Qed.

(** X9. POST /:id/retry answers 200 exactly when the id in the path
    reads as a number and a row with that id exists; in every other
    case (an id that is not a number, a row that does not exist) it
    answers 500, not 404, and leaves the state as it was. *)
Theorem retry_answers_200_iff_row_exists now key s :
  ((Routes.postRetry now key s).1 = 200
   <-> exists k, parseInt key = Some k /\ is_Some (rowOf s k))
  /\ ((Routes.postRetry now key s).1 <> 200 ->
      Routes.postRetry now key s = (500, s)).
Proof.
  destruct (parseInt key) as [k|] eqn:Hkey.
  - destruct (rowOf s k) as [n|] eqn:Hn.
    + destruct (retryNotification_found now key k s n Hkey Hn) as [s' Hs'].
      unfold Routes.postRetry. rewrite Hs'. simpl. split; [|done].
      split; [|done]. intros _. exists k. rewrite Hn. eauto.
    + unfold Routes.postRetry, NotificationService.retryNotification. rewrite Hkey.
      unfold mbind, eff_bind, read, NotificationModel.findById. simpl.
      unfold rowOf in Hn. rewrite Hn. simpl. split; [|done].
      split; [done|]. intros (k' & [= <-] & Hk). unfold rowOf in Hk. rewrite Hn in Hk.
      by destruct Hk.
  - unfold Routes.postRetry, NotificationService.retryNotification. rewrite Hkey. simpl.
    split; [|done]. split; [done|]. by intros (k' & ? & _).
Qed.


Import NotificationService.

Lemma queueNotification_existing now jd s n :
  rows (db s) !! notificationId jd = Some n ->
  exists key s1,
    NotificationQueueProcessor.queueNotification now jd s = (Ok key, s1)
    /\ rows (db s1)
       = <[notificationId jd := with_last_processed now (statusUpdate now "queued" n)]>
           (rows (db s)).
Proof.
  intros Hn. unfold NotificationQueueProcessor.queueNotification.
  unfold mbind at 1. unfold eff_bind, broker. simpl.
  unfold mbind at 1. unfold eff_bind.
  erewrite updateNotificationStatus_existing; [|by rewrite db_queue_add|done].
  simpl. eexists _, _. split; [reflexivity|]. simpl. by rewrite db_queue_add.
Qed.

Lemma submit_iteration now r c rest acc s n d' :
  NotificationModel.create now (createInput r c) (db s) = (Ok n, d') ->
  exists s1,
    submitChannels now r (c :: rest) acc s = submitChannels now r rest (acc ++ [n]) s1
    /\ rows (db s1) = <[id n := queuedRow now n]> (rows (db s))
    /\ rows (db s) !! id n = None.
Proof.
  intros Hc. pose proof (create_ok _ _ _ _ _ Hc) as (Hnone & Hid & Hrows & _).
  rewrite <- Hid in Hnone, Hrows.
  cbn [submitChannels]. unfold mbind at 1. unfold eff_bind, createRow. rewrite Hc. simpl.
  unfold mbind at 1. unfold eff_bind, sql, NotificationLogModel.create. simpl.
  rewrite Hrows, lookup_insert_eq. rewrite bool_decide_eq_true_2 by eauto. simpl.
  unfold mbind at 1. unfold eff_bind.
  match goal with
  | |- context [NotificationQueueProcessor.queueNotification now ?jd ?s0] =>
      destruct (queueNotification_existing now jd s0 n) as (key & s1 & -> & Hr);
        [by simpl; rewrite lookup_insert_eq|]
  end.
  simpl in Hr. rewrite insert_insert_eq in Hr.
  exists s1. done.
Qed.

Lemma create_fields now i d row d' :
  NotificationModel.create now i d = (Ok row, d') ->
  NotificationModel.in_channel i = Some (channel row)
  /\ NotificationModel.in_recipient i = Some (recipient row).
Proof.
  unfold NotificationModel.create.
  destruct (match NotificationModel.in_scheduled_at i with
            | Some (Some t) => Some t | Some None => None | None => Some now end);
    [|done].
  destruct (NotificationModel.in_channel i); [|done].
  destruct (NotificationModel.in_recipient i); [|done].
  destruct (NotificationModel.in_content i); [|done].
  destruct (_ && _); [|done]. by intros [= <- <-].
Qed.

Lemma submit_iteration_throw now r c rest acc s e d' :
  NotificationModel.create now (createInput r c) (db s) = (Throw e, d') ->
  submitChannels now r (c :: rest) acc s = (Throw e, set_db d' s).
Proof.
  intros Hc. cbn [submitChannels]. unfold mbind at 1. unfold eff_bind, createRow.
  by rewrite Hc.
Qed.

Lemma submitChannels_frame now r cs acc s k n :
  rows (db s) !! k = Some n ->
  rows (db (submitChannels now r cs acc s).2) !! k = Some n.
Proof.
  intros Hn.
  apply (keeps_submitChannels (fun m => m !! k = Some n) (fun i => i <> k)); try done.
  - intros m i t st Hi Hm. by rewrite lookup_alter_ne.
  - intros m i t Hi Hm. by rewrite lookup_alter_ne.
  - intros m row Hm Hnone _ _ _. rewrite lookup_insert_ne; [done|]. congruence.
  - intros m i Hm Hnone. congruence.
Qed.

Lemma submitChannels_creates now r cs : forall acc s created s',
  submitChannels now r cs acc s = (Ok created, s') ->
  exists news,
    created = (acc ++ news)%list
    /\ Forall2 (fun c n => ch_type c = Some (channel n)
                           /\ ch_recipient c = Some (recipient n)) cs news
    /\ forall n, n ∈ news ->
         rows (db s) !! id n = None
         /\ rows (db s') !! id n = Some (queuedRow now n)
         /\ retry_count n = 0 /\ max_retries n = 3.
Proof.
  induction cs as [|c cs IH]; intros acc s created s' H.
  - simpl in H. injection H as <- <-. exists []. rewrite app_nil_r.
    split; [done|]. split; [constructor|]. by intros n Hn%elem_of_nil.
  - destruct (NotificationModel.create now (createInput r c) (db s)) as [[n|e] d'] eqn:Hc.
    + destruct (submit_iteration now r c cs acc s n d' Hc) as (s1 & Heq & Hrows & Hnone).
      rewrite Heq in H. destruct (IH _ _ _ _ H) as (news & -> & Hall & Hnews).
      exists (n :: news). split; [by rewrite <- app_assoc|]. split.
      * constructor; [|done]. by apply create_fields in Hc.
      * intros n0 [->|Hin]%elem_of_cons.
        -- split; [done|]. split.
           ++ replace s' with (submitChannels now r cs (acc ++ [n]) s1).2 by (by rewrite H).
              apply submitChannels_frame. by rewrite Hrows, lookup_insert_eq.
           ++ by apply create_ok in Hc as (_ & _ & _ & _ & _ & -> & ->).
        -- destruct (Hnews n0 Hin) as (H1 & H2 & H3). split; [|done].
           rewrite Hrows in H1.
           destruct (decide (id n = id n0)) as [E|Hne].
           ++ by rewrite E, lookup_insert_eq in H1.
           ++ by rewrite lookup_insert_ne in H1.
    + rewrite (submit_iteration_throw now r c cs acc s e d' Hc) in H. done.
Qed.



(** X11. The id a submission answers with addresses the row it created:
    GET /:id/status with that id answers 200 with status "queued",
    retry counter 0 and the same id. *)
Theorem submitted_id_reads_back now r s st s' :
  sendNotification now r s = (Ok st, s') ->
  exists st',
    Routes.getStatus (ns_id st) s' = (200, Some st')
    /\ ns_id st' = ns_id st
    /\ ns_status st' = "queued"
    /\ ns_retryCount st' = 0.
Proof.
  unfold sendNotification. destruct (channels r) as [cs|]; [|done].
  unfold mbind, eff_bind.
  destruct (submitChannels now r cs [] s) as [[created|e] s1] eqn:Hs; [|done].
  destruct (submitChannels_creates now r cs [] s created s1 Hs) as (news & -> & _ & Hnews).
  simpl. destruct news as [|first rest]; [done|].
  intros [= <- <-]. simpl.
  destruct (Hnews first (list_elem_of_here _ _)) as (_ & Hrow & Hrc & _).
  unfold Routes.getStatus, getNotificationStatus. rewrite parseInt_showZ.
  unfold read, NotificationModel.findById. simpl. rewrite Hrow.
  simpl. eexists. split; [reflexivity|]. simpl. by rewrite Hrc.
Qed.

Lemma submitted_id_reads_back_witness :
  exists st',
    Routes.getStatus "1"
      (exec true 0 (Send (channelRequest "slack" "https://hooks.example/T1"))
         (initial allConfigured)) = (200, Some st')
    /\ ns_id st' = "1" /\ ns_status st' = "queued" /\ ns_retryCount st' = 0.
Proof.
  exact (submitted_id_reads_back 0 (channelRequest "slack" "https://hooks.example/T1")
           (initial allConfigured)
           (mkStatus "1" (Some "u1") "queued" [("slack", "queued")] 0 0 None 0)
           (exec true 0 (Send (channelRequest "slack" "https://hooks.example/T1"))
              (initial allConfigured)) eq_refl).
Defined.

(** X12. A submission is not atomic: the row of the first channel is
    created and queued whatever becomes of the channels after it, also
    when the submission as a whole throws and is answered with 500. *)
Theorem first_channel_survives_failed_submission now r c rest s n d' :
  channels r = Some (c :: rest) ->
  NotificationModel.create now (createInput r c) (db s) = (Ok n, d') ->
  rowOf s (id n) = None
  /\ rowOf (sendNotification now r s).2 (id n) = Some (queuedRow now n).
Proof.
  intros Hcs Hc.
  destruct (submit_iteration now r c rest [] s n d' Hc) as (s1 & Heq & Hrows & Hnone).
  split; [done|].
  assert (rows (db (submitChannels now r (c :: rest) [] s).2) !! id n
          = Some (queuedRow now n)) as Hrow.
  { rewrite Heq. apply submitChannels_frame. by rewrite Hrows, lookup_insert_eq. }
  unfold sendNotification. rewrite Hcs. unfold mbind, eff_bind, rowOf.
  destruct (submitChannels now r (c :: rest) [] s) as [[[|first l]|e] s2]; done.
Qed.

Lemma first_channel_survives_failed_submission_witness :
  (Routes.postSend true 0 halfRequest (initial allConfigured)).1 = 500
  /\ rowOf (initial allConfigured) 1 = None
  /\ rowOf (sendNotification 0 halfRequest (initial allConfigured)).2 1
     = Some (queuedRow 0 halfRow).
Proof.
  split; [reflexivity|].
  exact (first_channel_survives_failed_submission 0 halfRequest
           (mkChannel (Some "slack") (Some "https://hooks.example/T1"))
           [mkChannel (Some "sms") None] (initial allConfigured) halfRow
           (mkDB {[1 := halfRow]} 2 ∅ []) eq_refl eq_refl).
Defined.

(** X13. The delays of the retry policies: for every channel that has a
    policy, the delay never decreases from one retry to the next and is
    never shorter than the policy's base delay; and for the retries the
    policy allows, an exponential delay is the base delay doubled each
    time, the cap never being reached. *)
Theorem retry_delays_grow ch cfg j k :
  retryConfigs ch = Own cfg -> 1 <= j <= k ->
  retryDelay cfg j <= retryDelay cfg k
  /\ backoffDelay cfg <= retryDelay cfg j
  /\ (k <= maxRetries cfg -> backoffType cfg = exponential ->
      retryDelay cfg k = backoffDelay cfg * 2 ^ (k - 1)).
Proof.
  intros Hcfg Hjk.
  assert (0 < 2 ^ (j - 1)) as Hj by (apply Z.pow_pos_nonneg; lia).
  assert (2 ^ (j - 1) <= 2 ^ (k - 1)) as Hle by (apply Z.pow_le_mono_r; lia).
  destruct (retryConfigs_own _ _ Hcfg) as [E|[E|[E|E]]]; subst cfg;
    unfold retryDelay, backoffCap; simpl; (split; [|split]); try lia; intros Hk Hexp; try discriminate;
    assert (k = 1 \/ k = 2 \/ k = 3 \/ k = 4 \/ k = 5) as Hcase by lia;
    destruct Hcase as [E|[E|[E|[E|E]]]]; subst k; try lia; reflexivity.
Qed.

Lemma retry_delays_grow_witness :
  retryDelay (mkRetryConfig 3 exponential 5000 (Some 600000)) 2
  <= retryDelay (mkRetryConfig 3 exponential 5000 (Some 600000)) 3
  /\ 5000 <= retryDelay (mkRetryConfig 3 exponential 5000 (Some 600000)) 2
  /\ retryDelay (mkRetryConfig 3 exponential 5000 (Some 600000)) 3 = 20000.
Proof.
  destruct (retry_delays_grow "sms" (mkRetryConfig 3 exponential 5000 (Some 600000)) 2 3
              eq_refl ltac:(lia)) as (H1 & H2 & H3).
  split; [exact H1|]. split; [exact H2|]. exact (H3 ltac:(simpl; lia) eq_refl).
Defined.

(* ===================================================================== *)
(* The queries for pending and for failed rows                            *)
(* ===================================================================== *)

Lemma isDue_true now n :
  NotificationModel.isDue now n = true <-> status n = "pending" /\ scheduled_at n <= now.
Proof.
  unfold NotificationModel.isDue. by rewrite andb_true_iff, String.eqb_eq, Z.leb_le.
Qed.

Lemma scheduledAsc_sorted l :
  StronglySorted (fun a b => scheduled_at a <= scheduled_at b)
    (orderBy NotificationModel.scheduledAsc l).
Proof.
  apply StronglySorted_impl with
    (R := fun a b => NotificationModel.scheduledAsc a b = true).
  - intros a b. unfold NotificationModel.scheduledAsc. lia.
  - apply orderBy_sorted; unfold NotificationModel.scheduledAsc; intros; lia.
Qed.

Lemma sorted_app_elem {A} (R : A -> A -> Prop) l1 l2 x1 x2 :
  StronglySorted R (l1 ++ l2)%list -> x1 ∈ l1 -> x2 ∈ l2 -> R x1 x2.
Proof.
  induction l1 as [|y l1 IH]; simpl; intros Hs H1 H2; [by apply elem_of_nil in H1|].
  apply StronglySorted_inv in Hs as [Hs Hy].
  apply elem_of_cons in H1 as [->|H1]; [|by apply IH].
  rewrite Forall_forall in Hy. apply Hy, elem_of_app. by right.
Qed.

Lemma elem_of_getFailedNotifications limit d l n :
  NotificationModel.getFailedNotifications limit d = Ok l ->
  n ∈ l -> NotificationModel.isRetryable n = true.
Proof.
  unfold NotificationModel.getFailedNotifications.
  destruct (limit <? 0); [done|]. intros [= <-] Hn.
  apply elem_of_take in Hn as (i & Hn & _). apply list_elem_of_lookup_2 in Hn.
  rewrite orderBy_perm, list_elem_of_In, filter_In in Hn. tauto.
Qed.

(** X14. The query for pending notifications returns the due pending
    rows that are scheduled earliest: the rows with status "pending"
    and a schedule not after the current time, ordered by schedule, cut
    after [limit] rows; a negative limit is an error of the store. *)
Theorem getPendingNotifications_earliest_due now limit d :
  (limit < 0 -> exists e, NotificationModel.getPendingNotifications now limit d = Throw e)
  /\ (0 <= limit ->
      exists l rest,
        NotificationModel.getPendingNotifications now limit d = Ok l
        /\ (forall n, n ∈ (l ++ rest)%list
              <-> (exists k, rows d !! k = Some n)
                  /\ status n = "pending" /\ scheduled_at n <= now)
        /\ length (l ++ rest)%list
           = length (List.filter (NotificationModel.isDue now) (allRows d))
        /\ StronglySorted (fun a b => scheduled_at a <= scheduled_at b) (l ++ rest)%list
        /\ (forall a b, a ∈ l -> b ∈ rest -> scheduled_at a <= scheduled_at b)
        /\ length l = Nat.min (Z.to_nat limit) (length (l ++ rest)%list)).
Proof.
  unfold NotificationModel.getPendingNotifications. split.
  - intros H. assert ((limit <? 0) = true) as -> by lia. eauto.
  - intros H. assert ((limit <? 0) = false) as -> by lia.
    set (sorted := orderBy NotificationModel.scheduledAsc
                     (List.filter (NotificationModel.isDue now) (allRows d))).
    exists (take (Z.to_nat limit) sorted), (drop (Z.to_nat limit) sorted).
    rewrite take_drop. split; [done|].
    pose proof (scheduledAsc_sorted (List.filter (NotificationModel.isDue now) (allRows d)))
      as Hs. fold sorted in Hs.
    split; [|split; [|split; [|split]]].
    + intros n. subst sorted.
      by rewrite orderBy_perm, list_elem_of_In, filter_In, <- list_elem_of_In,
        elem_of_allRows, isDue_true.
    + subst sorted. by rewrite orderBy_perm.
    + done.
    + intros a b Ha Hb. rewrite <- (take_drop (Z.to_nat limit) sorted) in Hs.
      by eapply (sorted_app_elem _ _ _ _ _ Hs).
    + by rewrite length_take.
Qed.

Lemma getPendingNotifications_earliest_due_witness :
  exists l rest,
    NotificationModel.getPendingNotifications 10 1 (db threeRowsState) = Ok l
    /\ length l = Nat.min 1 (length (l ++ rest)%list).
Proof.
  destruct (getPendingNotifications_earliest_due 10 1 (db threeRowsState)) as [_ H].
  destruct (H ltac:(lia)) as (l & rest & H1 & _ & _ & _ & _ & H2).
  exists l, rest. split; [exact H1|exact H2].
Defined.

(** X15. The query for failed rows that may be retried never returns a
    row the failed handler has just dealt with: on a channel with a
    policy, for a row with the [max_retries] that [create] assigns and
    not already "failed", the handler either leaves the status as it is
    or, the policy being exhausted, moves the row to "failed" with a
    retry counter that has reached [max_retries]. *)
Theorem handled_failure_is_not_retryable now job msg s n cfg :
  rowOf s (notificationId (data job)) = Some n ->
  retryConfigs (job_channel (data job)) = Own cfg ->
  max_retries n = 3 -> status n <> "failed" ->
  let s' := run (NotificationQueueProcessor.onFailed now job msg) s in
  exists n',
    rowOf s' (notificationId (data job)) = Some n'
    /\ NotificationModel.isRetryable n' = false
    /\ forall limit l,
         NotificationModel.getFailedNotifications limit (db s') = Ok l -> n' ∉ l.
Proof.
  intros Hn Hcfg Hmax Hst s'. unfold rowOf in Hn.
  assert (exists n', rowOf s' (notificationId (data job)) = Some n'
                     /\ NotificationModel.isRetryable n' = false) as (n' & Hn' & Hr).
  { subst s'. rewrite (onFailed_run now job msg s n cfg Hn Hcfg).
    destruct (retry_count n <? maxRetries cfg) eqn:E.
    - destruct (scheduleRetry_existing now (data job) (retry_count n + 1) msg s n cfg Hn Hcfg)
        as (d & -> & Hrows).
      unfold rowOf. simpl. rewrite Hrows, lookup_insert_eq. eexists. split; [done|].
      unfold NotificationModel.isRetryable. simpl.
      apply String.eqb_neq in Hst. by rewrite Hst.
    - unfold run. rewrite (updateNotificationStatus_existing _ _ _ _ _ n) by done.
      unfold rowOf. simpl. rewrite lookup_insert_eq. eexists. split; [done|].
      unfold NotificationModel.isRetryable. simpl. rewrite Hmax.
      assert (3 <= maxRetries cfg).
      { destruct (retryConfigs_own _ _ Hcfg) as [E'|[E'|[E'|E']]]; subst cfg; simpl; lia. }
      apply Z.ltb_ge in E. apply Z.ltb_ge. lia. }
  exists n'. split; [done|]. split; [done|].
  intros limit l Hl Hin. apply (elem_of_getFailedNotifications _ _ _ _ Hl) in Hin. congruence.
Qed.

Lemma handled_failure_is_not_retryable_witness :
  exists n',
    rowOf (run (NotificationQueueProcessor.onFailed 9 firstJob "ETIMEDOUT")
             failedAttemptState) 1 = Some n'
    /\ NotificationModel.isRetryable n' = false
    /\ forall limit l,
         NotificationModel.getFailedNotifications limit
           (db (run (NotificationQueueProcessor.onFailed 9 firstJob "ETIMEDOUT")
                  failedAttemptState)) = Ok l -> n' ∉ l.
Proof.
  exact (handled_failure_is_not_retryable 9 firstJob "ETIMEDOUT" failedAttemptState
           claimedRow (mkRetryConfig 5 exponential 2000 (Some 300000))
           eq_refl eq_refl eq_refl ltac:(discriminate)).
Defined.

(* ===================================================================== *)
(* The direct SMS routes                                                  *)
(* ===================================================================== *)

Lemma digitsOnly_length_format x :
  SMSService.digitsOnly (SMSService.formatPhoneNumber x)
  = if Nat.eqb (String.length (SMSService.digitsOnly x)) 10
    then String "1" (SMSService.digitsOnly x)
    else SMSService.digitsOnly x.
Proof.
  unfold SMSService.formatPhoneNumber.
  destruct (Nat.eqb (String.length (SMSService.digitsOnly x)) 10).
  - change (SMSService.digitsOnly ("+1" ++ SMSService.digitsOnly x))
      with (String "1" (SMSService.digitsOnly (SMSService.digitsOnly x))).
    by rewrite digitsOnly_idempotent.
  - destruct (_ && _); [|done].
    change (SMSService.digitsOnly ("+" ++ SMSService.digitsOnly x))
      with (SMSService.digitsOnly (SMSService.digitsOnly x)).
    by rewrite digitsOnly_idempotent.
Qed.

(** X16. Formatting a phone number does not change whether it is valid
    (a number of ten digits becomes one of eleven, every other number
    keeps its digits), and a valid number, once formatted, starts with
    "+": it is in the international form the gateway expects. *)
Theorem formatPhoneNumber_keeps_validity x :
  SMSService.validatePhoneNumber (SMSService.formatPhoneNumber x)
  = SMSService.validatePhoneNumber x
  /\ (SMSService.validatePhoneNumber x = true ->
      startsWith (SMSService.formatPhoneNumber x) "+" = true).
Proof.
  split.
  - unfold SMSService.validatePhoneNumber. rewrite digitsOnly_length_format.
    destruct (Nat.eqb_spec (String.length (SMSService.digitsOnly x)) 10) as [E|E]; [|done].
    cbn [String.length]. by rewrite E.
  - unfold SMSService.validatePhoneNumber, SMSService.formatPhoneNumber.
    intros [H1 H2]%andb_true_iff. apply Nat.leb_le in H1.
    destruct (Nat.eqb_spec (String.length (SMSService.digitsOnly x)) 10) as [E|E]; [done|].
    assert (Nat.ltb 10 (String.length (SMSService.digitsOnly x)) = true) as ->
      by (apply Nat.ltb_lt; lia).
    destruct (startsWith x "+") eqn:F; simpl; [exact F|done].
Qed.

Lemma formatPhoneNumber_keeps_validity_witness :
  SMSService.validatePhoneNumber (SMSService.formatPhoneNumber "(555) 123-4567") = true
  /\ startsWith (SMSService.formatPhoneNumber "(555) 123-4567") "+" = true.
Proof.
  destruct (formatPhoneNumber_keeps_validity "(555) 123-4567") as [H1 H2].
  split; [rewrite H1; reflexivity|]. apply H2. reflexivity.
Defined.

(** X17. A bulk send, once the gateway is configured, never throws and
    returns one result per message, in order; a result says [success]
    exactly when the gateway accepted that message, and carries the
    error otherwise; in the summary of the route the successful and the
    failed add up to the total. Without a configured gateway it throws
    before sending anything. *)
Theorem sendBulk_one_result_per_message cfg outcomes :
  if sms_configured cfg
  then exists results,
         SMSService.sendBulk cfg outcomes = Ok results
         /\ Forall2 (fun o r => (success r = true <-> exists ref, o = Accepted ref)
                                /\ (success r = false -> error r = Some (reasonOf o)))
              outcomes results
         /\ let '(total, successful, failed) := Routes.bulkSummary outcomes results in
            total = Z.of_nat (length outcomes) /\ successful + failed = total
  else exists e, SMSService.sendBulk cfg outcomes = Throw e.
Proof.
  unfold SMSService.sendBulk, SMSService.sendSMS.
  destruct (sms_configured cfg); [|eauto].
  eexists. split; [reflexivity|]. split.
  - induction outcomes as [|o l IH]; simpl; constructor; [|done].
    destruct o; simpl; split; try done; split; try done; eauto.
    all: by intros [ref ?].
  - simpl. split; [done|].
    induction outcomes as [|o l IH]; simpl; [done|].
    destruct o; simpl in *; lia.
Qed.

(* ===================================================================== *)
(* Queueing in bulk                                                       *)
(* ===================================================================== *)

Lemma updateNotificationStatus_add now k st msg now' name jd delay prio key s :
  NotificationQueueProcessor.updateNotificationStatus now k st msg
    (Queue.add now' name jd delay prio key s)
  = (Ok tt, Queue.add now' name jd delay prio key
              (run (NotificationQueueProcessor.updateNotificationStatus now k st msg) s)).
Proof.
  unfold run, NotificationQueueProcessor.updateNotificationStatus, tryCatch, mbind, eff_bind,
    sql, sql_. rewrite db_queue_add.
  destruct (NotificationModel.updateStatus now k st (db s)) as [d1|e]; simpl; [|done].
  destruct (NotificationLogModel.create _ d1) as [d2|e]; simpl;
    by rewrite !queue_add_set_db.
Qed.

Lemma updateNotificationStatus_addBulk now k st msg now' jobs : forall s,
  NotificationQueueProcessor.updateNotificationStatus now k st msg (Queue.addBulk now' jobs s)
  = (Ok tt, Queue.addBulk now' jobs
              (run (NotificationQueueProcessor.updateNotificationStatus now k st msg) s)).
Proof.
  unfold Queue.addBulk. induction jobs as [|j jobs IH]; intros s; simpl.
  - unfold run. pose proof (updateNotificationStatus_returns now k st msg s) as H.
    by destruct (NotificationQueueProcessor.updateNotificationStatus now k st msg s)
      as [[[]|e] s1].
  - rewrite IH. f_equal. f_equal. unfold run at 1. by rewrite updateNotificationStatus_add.
Qed.

Lemma queueNotification_run now jd s :
  NotificationQueueProcessor.queueNotification now jd s
  = (Ok (NotificationQueueProcessor.jobKey jd),
     run (NotificationQueueProcessor.updateNotificationStatus now (notificationId jd)
            "queued" "Notification queued for processing")
       (Queue.add now (NotificationQueueProcessor.jobKey jd) jd 0
          (getPriority (job_priority jd)) (NotificationQueueProcessor.jobKey jd) s)).
Proof.
  unfold NotificationQueueProcessor.queueNotification, mbind, eff_bind, broker, run,
    NotificationQueueProcessor.jobKey.
  match goal with
  | |- context [NotificationQueueProcessor.updateNotificationStatus ?a ?b ?c ?d ?s0] =>
      pose proof (updateNotificationStatus_returns a b c d s0) as H;
      destruct (NotificationQueueProcessor.updateNotificationStatus a b c d s0) as [[[]|e] s1]
  end; done.
Qed.

(** X18. Queueing in bulk is queueing one by one: [queueBulkNotifications]
    never throws, leaves the store and the broker in the state that
    calling [queueNotification] on each job in turn leaves them in, and
    returns the job ids those calls return. *)
Theorem queueBulkNotifications_as_one_by_one now jobsData s :
  NotificationQueueProcessor.queueBulkNotifications now jobsData s
  = (Ok (List.map NotificationQueueProcessor.jobKey jobsData),
     foldl (fun acc jd => run (NotificationQueueProcessor.queueNotification now jd) acc)
       s jobsData)
  /\ Forall (fun jd => forall s0,
               (NotificationQueueProcessor.queueNotification now jd s0).1
               = Ok (NotificationQueueProcessor.jobKey jd)) jobsData.
Proof.
  split; [|apply Forall_forall; intros jd _ s0; by rewrite queueNotification_run].
  unfold NotificationQueueProcessor.queueBulkNotifications.
  unfold mbind at 1. unfold eff_bind, broker.
  assert (forall l s0,
            NotificationQueueProcessor.forEach
              (fun jd => NotificationQueueProcessor.updateNotificationStatus now
                           (notificationId jd) "queued" "Notification queued for processing")
              l
              (Queue.addBulk now
                 (List.map (fun jd => (NotificationQueueProcessor.jobKey jd, jd,
                                       getPriority (job_priority jd))) l) s0)
            = (Ok tt,
               foldl (fun acc jd =>
                        run (NotificationQueueProcessor.queueNotification now jd) acc) s0 l))
    as H.
  { induction l as [|jd l IH]; intros s0; [done|].
    cbn [NotificationQueueProcessor.forEach List.map foldl].
    unfold mbind, eff_bind. unfold Queue.addBulk at 1. cbn [foldl fst snd].
    match goal with
    | |- context [foldl ?f ?s1 (List.map ?g l)] =>
        change (foldl f s1 (List.map g l)) with (Queue.addBulk now (List.map g l) s1)
    end.
    rewrite updateNotificationStatus_addBulk. rewrite IH.
    f_equal. f_equal. unfold run at 2. by rewrite queueNotification_run. }
  unfold mbind, eff_bind. by rewrite H.
Qed.

(* ===================================================================== *)
(* GET /user/:userId at the edges                                         *)
(* ===================================================================== *)



(* ===================================================================== *)
(* Channels that name a member of Object.prototype                        *)
(* ===================================================================== *)

Lemma inherited_unsupported cfg ch o :
  retryConfigs ch = Inherited ->
  NotificationQueueProcessor.dispatch cfg ch o = Throw ("Unsupported channel: " ++ ch).
Proof.
  intros H. apply dispatch_unsupported. unfold retryConfigs in H.
  repeat (match type of H with
          | context [if ?b then _ else _] => destruct b eqn:?; try discriminate
          end).
  match goal with E : inherited ch = true |- _ =>
    apply existsb_exists in E as (x & Hx & E); apply String.eqb_eq in E; subst x
  end.
  simpl in Hx.
  repeat (destruct Hx as [<-|Hx];
          [intros Hin; vm_compute in Hin;
           repeat (apply elem_of_cons in Hin as [Hin|Hin]; [discriminate|]);
           by apply elem_of_nil in Hin|]).
  done.
Qed.

(** X20. A channel that names a member of [Object.prototype]
    ("constructor", "toString", ...) fails for good on its first
    attempt: no adapter serves it, the policy table answers with the
    inherited member, whose [maxRetries] is undefined, and the
    comparison with the retry counter is false. The row is moved to
    "failed" with its counter unchanged, nothing is enqueued, and the
    log gains an "error" and a "failed" entry. The query for
    retryable failures selects such a row whenever its counter is below
    [max_retries]. *)
Theorem prototype_channel_fails_at_once now k o s job n :
  findJob k (active s) = Some job ->
  rowOf s (notificationId (data job)) = Some n ->
  retryConfigs (job_channel (data job)) = Inherited ->
  let nid := notificationId (data job) in
  let ch := job_channel (data job) in
  let s' := NotificationQueueProcessor.finish now k o s in
  rowOf s' nid = Some (with_last_processed now (statusUpdate now "failed" n))
  /\ logs (db s') = exceededEntry nid ("Unsupported channel: " ++ ch)
                      :: errorEntry now nid ch ("Unsupported channel: " ++ ch)
                      :: logs (db s)
  /\ waiting s' = waiting s
  /\ NotificationModel.isRetryable (with_last_processed now (statusUpdate now "failed" n))
     = (retry_count n <? max_retries n).
Proof.
  intros Hj Hn Hcfg nid ch s'. subst nid ch s'. unfold rowOf in Hn.
  unfold NotificationQueueProcessor.finish. rewrite Hj.
  unfold NotificationQueueProcessor.processNotification_send, tryCatch, mbind, eff_bind,
    NotificationQueueProcessor.invoke, sql, NotificationLogModel.create, throw.
  rewrite (inherited_unsupported _ _ _ Hcfg). simpl.
  rewrite Hn. rewrite bool_decide_eq_true_2 by eauto. simpl.
  unfold run, NotificationQueueProcessor.onFailed, mbind, eff_bind, read,
    NotificationModel.findById. simpl.
  rewrite Hn, Hcfg.
  match goal with
  | |- context [NotificationQueueProcessor.updateNotificationStatus now ?i ?st ?msg ?s0] =>
      rewrite (updateNotificationStatus_existing now i st msg s0 n) by done
  end.
  unfold rowOf. simpl. by rewrite lookup_insert_eq.
Qed.

Lemma prototype_channel_fails_at_once_witness :
  let s' := NotificationQueueProcessor.finish 9 "notification-1" (Accepted "ok") protoState in
  rowOf s' 1 = Some (with_last_processed 9 (statusUpdate 9 "failed" protoRow))
  /\ logs (db s') = [exceededEntry 1 "Unsupported channel: constructor";
                     errorEntry 9 1 "constructor" "Unsupported channel: constructor"]
  /\ waiting s' = []
  /\ NotificationModel.isRetryable (with_last_processed 9 (statusUpdate 9 "failed" protoRow))
     = true.
Proof.
  exact (prototype_channel_fails_at_once 9 "notification-1" (Accepted "ok") protoState
           protoJob protoRow eq_refl eq_refl eq_refl).
Defined.
